(** * Conversational memory store: ingestor and contextualizer

    A shallow embedding of the write path ([ingestor/app/main.py],
    [contextualizer/app/qdrant_client.py]) and of the read path
    ([contextualizer/app/qdrant_search.py], [contextualizer/app/main.py]).

    Python values are a small inductive type, dictionaries are [gmap string],
    and every function that talks to the outside (the embedding service, the
    clock, [uuid4], the Qdrant client) is a computation in a state-and-exception
    monad over a [World]: the world carries the vector store, the trace of the
    outbound calls made so far and a counter that indexes the replies of the
    outside, which are given by an [Env]. *)

From Stdlib Require Import ZArith String List Bool Lia.
From Stdlib Require Import PrimFloat.
From stdpp Require Import gmap strings list fin_maps pretty.

Set Warnings "-register-all".
Local Open Scope string_scope.
Local Open Scope Z_scope.
Local Open Scope list_scope.

(** ** Python values and exceptions *)

(** JSON-like values: what a payload ([Dict[str, Any]]) or a decoded response
    body can hold. *)
Inductive PyVal : Type :=
| VNone
| VBool (b : bool)
| VInt (z : Z)
| VFloat (x : float)
| VStr (s : string)
| VList (l : list PyVal).

Inductive PyExc : Type :=
| KeyError (key : string)             (* d[key] on a dict without key *)
| RequestException (detail : string)  (* raised by requests: timeout, refused, bad body, HTTP status *)
| QdrantException (detail : string)   (* raised by the Qdrant client: unreachable or rejected *)
| ValidationError (fields : list string) (* pydantic: the fields that did not validate *)
| HTTPException (status_code : Z) (detail : string)
| AttributeError (detail : string)    (* an attribute read on an object that lacks it *)
| AssertionError (detail : string).   (* a failed assert *)

(** [str(e)]. *)
Definition exc_str (e : PyExc) : string :=
  match e with
  | KeyError k => "'" +:+ k +:+ "'"
  | RequestException d => d
  | QdrantException d => d
  | ValidationError fs => String.concat ", " fs
  | HTTPException _ d => d
  | AttributeError d => d
  | AssertionError d => d
  end.

Inductive Outcome (A : Type) : Type :=
| Return (a : A)
| Raise (e : PyExc).
Arguments Return {A} a.
Arguments Raise {A} e.

(** ** The vector store and the outside world *)

Record PointStruct : Type := mkPoint {
  p_id : string;
  p_vector : PyVal;
  p_payload : gmap string PyVal
}.

(** A collection: cosine distance throughout ([models.Distance.COSINE]). *)
Record Collection : Type := mkCollection {
  c_vector_size : Z;
  c_on_disk_payload : bool;
  c_indexes : list (string * string);        (* field name, schema *)
  c_points : gmap string (PyVal * gmap string PyVal)   (* id -> vector, payload *)
}.

Record ScoredPoint : Type := mkHit {
  h_payload : gmap string PyVal;
  h_score : float
}.

(** The outbound calls, as they appear in the trace. *)
Inductive Call : Type :=
| CPost (url : string) (text : string)
| CGetCollections
| CRecreateCollection (name : string) (vsize : Z) (on_disk : bool)
| CCreatePayloadIndex (name field schema : string)
| CUpsert (name : string) (points : list PointStruct)
| CSearch (name : string) (query : list float) (conversation_id : string) (limit : Z).

(** Reply of [requests.post]. *)
Inductive PostReply : Type :=
| PostFails (detail : string)   (* no response: timeout or connection error *)
| Response (status_code : Z) (json : option (gmap string PyVal)). (* None: body does not decode *)

(** What the outside answers at each step; the step is the value of [tick]
    when the call is made. *)
Record Env : Type := mkEnv {
  embed_head : nat -> string -> PostReply;   (* reply to POST {"text": t} *)
  qdrant_fault : nat -> option string;       (* Some d: this store call raises *)
  qdrant_hits : nat -> list ScoredPoint;     (* ranked hits of a search *)
  uuid_src : nat -> string;                  (* str(uuid4()) *)
  clock : nat -> Z;                          (* int(time.time()) *)
  py_hash : string -> Z                      (* hash(text), fixed within a process *)
}.

Record World : Type := mkWorld {
  qdrant : gmap string Collection;
  trace : list Call;      (* oldest call first *)
  tick : nat
}.

Definition Py (A : Type) : Type := World -> Outcome A * World.

Definition ret {A} (a : A) : Py A := fun w => (Return a, w).
Definition raise {A} (e : PyExc) : Py A := fun w => (Raise e, w).
Definition bind {A B} (m : Py A) (k : A -> Py B) : Py B :=
  fun w => match m w with
           | (Return a, w') => k a w'
           | (Raise e, w') => (Raise e, w')
           end.

(** [try: m except Exception as e: h e]. *)
Definition try_except {A} (m : Py A) (h : PyExc -> Py A) : Py A :=
  fun w => match m w with
           | (Return a, w') => (Return a, w')
           | (Raise e, w') => h e w'
           end.

Declare Scope py_scope.
Delimit Scope py_scope with py.
Notation "x <- m ;; k" := (bind m (fun x => k))
  (at level 100, m at next level, right associativity) : py_scope.
Notation "m ;;; k" := (bind m (fun _ => k))
  (at level 100, right associativity) : py_scope.
Local Open Scope py_scope.

(** A list comprehension whose element expression has effects: elements are
    evaluated left to right and the first exception ends the loop. *)
Fixpoint mapM {A B} (f : A -> Py B) (l : list A) : Py (list B) :=
  match l with
  | [] => ret []
  | x :: xs => y <- f x ;; ys <- mapM f xs ;; ret (y :: ys)
  end.

Definition next_tick : Py nat :=
  fun w => (Return (tick w), mkWorld (qdrant w) (trace w) (S (tick w))).
Definition log (c : Call) : Py unit :=
  fun w => (Return tt, mkWorld (qdrant w) (trace w ++ [c]) (tick w)).
Definition get_store : Py (gmap string Collection) :=
  fun w => (Return (qdrant w), w).
Definition put_store (q : gmap string Collection) : Py unit :=
  fun w => (Return tt, mkWorld q (trace w) (tick w)).

(** ** Configuration ([os.getenv] defaults) *)

Definition COLLECTION : string := "memories".
Definition EMBED_URL : string := "http://embed_head:8000/embed".

Definition QDRANT_URL : string := "http://qdrant:6333".

(** Python truthiness of the two optional values the code tests. *)
Definition truthy_int (v : option Z) : bool :=
  match v with Some z => negb (z =? 0) | None => false end.
Definition truthy_dict (v : option (gmap string PyVal)) : bool :=
  match v with Some d => negb (bool_decide (d = ∅)) | None => false end.

(** [d.update(e)]: the entries of [e] replace those of [d]. *)
Definition dict_update (d e : gmap string PyVal) : gmap string PyVal := e ∪ d.

(** [d[k]] and [d.get(k, dflt)]. *)
Definition getitem (d : gmap string PyVal) (k : string) : Py PyVal :=
  match d !! k with Some v => ret v | None => raise (KeyError k) end.
Definition dict_get (d : gmap string PyVal) (k : string) (dflt : PyVal) : PyVal :=
  match d !! k with Some v => v | None => dflt end.

(** ** The clients: clock, uuid4, requests, Qdrant *)

Section Clients.
Context (env : Env).

Definition time_time : Py Z := n <- next_tick ;; ret (clock env n).

Definition uuid4 : Py string := n <- next_tick ;; ret (uuid_src env n).

(** [v or int(time.time())]: the clock is read only when [v] is falsy. *)
Definition or_now (v : option Z) : Py Z :=
  match v with
  | Some z => if truthy_int v then ret z else time_time
  | None => time_time
  end.

(** [requests.post(url, json={"text": t}, timeout=...)]: the status code
    and the decoded body of the response, or an exception when there is
    no response. *)
Definition requests_post (url t : string) : Py (Z * option (gmap string PyVal)) :=
  log (CPost url t) ;;;
  n <- next_tick ;;
  match embed_head env n t with
  | PostFails d => raise (RequestException d)
  | Response st body => ret (st, body)
  end.

(** [resp.json()]. *)
Definition resp_json (r : Z * option (gmap string PyVal)) : Py (gmap string PyVal) :=
  match snd r with
  | Some body => ret body
  | None => raise (RequestException "JSONDecodeError")
  end.

(** [resp.raise_for_status()]. *)
Definition raise_for_status (r : Z * option (gmap string PyVal)) : Py unit :=
  if (400 <=? fst r) && (fst r <? 600)
  then raise (RequestException ("HTTPError " +:+ pretty (fst r)))
  else ret tt.

(** Every call of the Qdrant client is logged and may raise. *)
Definition qdrant_call (c : Call) : Py nat :=
  log c ;;;
  n <- next_tick ;;
  match qdrant_fault env n with
  | Some d => raise (QdrantException d)
  | None => ret n
  end.

Definition get_collections : Py (list string) :=
  _ <- qdrant_call CGetCollections ;;
  q <- get_store ;;
  ret (elements (dom q)).

(** Drops the collection if it is there and creates it empty. *)
Definition recreate_collection (name : string) (vsize : Z) (on_disk : bool) : Py unit :=
  _ <- qdrant_call (CRecreateCollection name vsize on_disk) ;;
  q <- get_store ;;
  put_store (<[name := mkCollection vsize on_disk [] ∅]> q).

Definition create_payload_index (name field schema : string) : Py unit :=
  _ <- qdrant_call (CCreatePayloadIndex name field schema) ;;
  q <- get_store ;;
  match q !! name with
  | Some c =>
      put_store (<[name := mkCollection (c_vector_size c) (c_on_disk_payload c)
                             (c_indexes c ++ [(field, schema)]) (c_points c)]> q)
  | None => raise (QdrantException "collection not found")
  end.

(** Points are keyed by id: a point whose id is taken replaces the old one. *)
Definition add_points (ps : list PointStruct)
    (m : gmap string (PyVal * gmap string PyVal)) : gmap string (PyVal * gmap string PyVal) :=
  fold_left (fun acc p => <[p_id p := (p_vector p, p_payload p)]> acc) ps m.

Definition upsert (name : string) (ps : list PointStruct) : Py unit :=
  _ <- qdrant_call (CUpsert name ps) ;;
  q <- get_store ;;
  match q !! name with
  | Some c =>
      put_store (<[name := mkCollection (c_vector_size c) (c_on_disk_payload c)
                             (c_indexes c) (add_points ps (c_points c))]> q)
  | None => raise (QdrantException "collection not found")
  end.

(** What [client.upload_points] is handed as [points]: a sequence of
    points, or a [models.Batch] of parallel columns. *)
Inductive Points : Type :=
| PointList (ps : list PointStruct)
| PointBatch (ids : list string) (vectors : list PyVal) (payloads : list (gmap string PyVal)).

(** The keyword under which a caller passes the filter to [client.search]. *)
Inductive FilterKeyword : Type := KwQueryFilter | KwFilter.

(** [client.upload_points(collection_name, points)] walks over [points] and
    reads the id, vector and payload of each element. A [models.Batch] is
    not a sequence of points: walking it fails on the first attribute read,
    before anything is sent. *)
Definition upload_points (name : string) (points : Points) : Py unit :=
  match points with
  | PointList ps => upsert name ps
  | PointBatch _ _ _ => raise (AttributeError "'tuple' object has no attribute 'id'")
  end.

(** Filtered nearest-neighbour search; the ranking is the store's. *)
Definition client_search (name : string) (query : list float) (cid : string) (limit : Z)
    : Py (list ScoredPoint) :=
  n <- qdrant_call (CSearch name query cid limit) ;;
  ret (qdrant_hits env n).

(** [client.search(..., <keyword>=Filter(...))]. The parameter is
    [query_filter]; a keyword the method does not know is refused by its
    assertion on the remaining arguments, before any request. *)
Definition client_search_kw (kw : FilterKeyword) (name : string) (query : list float)
    (cid : string) (limit : Z) : Py (list ScoredPoint) :=
  match kw with
  | KwQueryFilter => client_search name query cid limit
  | KwFilter => raise (AssertionError "Unknown arguments: ['filter']")
  end.
End Clients.

(** ** ingestor/app/main.py *)

Module Ingestor.
Definition VECTOR_SIZE : Z := 384.

(** A validated [Item]. *)
Record Item : Type := mkItem {
  text : string;
  conversation_id : string;
  role : string;
  timestamp : option Z;
  extra_payload : option (gmap string PyVal)
}.

(** The body of a request before validation: a field is absent or holds
    a value of its declared type. *)
Record ItemIn : Type := mkItemIn {
  in_text : option string;
  in_conversation_id : option string;
  in_role : option string;
  in_timestamp : option Z;
  in_extra_payload : option (gmap string PyVal)
}.

Definition missing {A} (name : string) (v : option A) : list string :=
  match v with Some _ => [] | None => [name] end.

Section WithEnv.
Context (env : Env).

Definition _ensure_collection : Py unit :=
  names <- get_collections env ;;
  if negb (bool_decide (COLLECTION ∈ names)) then
    recreate_collection env COLLECTION VECTOR_SIZE true ;;;
    create_payload_index env COLLECTION "conversation_id" "keyword" ;;;
    create_payload_index env COLLECTION "ts" "integer"
  else ret tt.

(** [@validator("timestamp", pre=True, always=True)]. *)
Definition _ts (v : option Z) : Py Z := or_now env v.

(** Construction of an [Item] by pydantic: [text] and [conversation_id]
    are required strings, [role] defaults to "user", [timestamp] goes
    through [_ts]; nothing else is checked. *)
Definition Item_validate (r : ItemIn) : Py Item :=
  ts <- _ts (in_timestamp r) ;;
  match in_text r, in_conversation_id r with
  | Some t, Some c =>
      ret (mkItem t c (default "user" (in_role r)) (Some ts) (in_extra_payload r))
  | _, _ =>
      raise (ValidationError (missing "text" (in_text r) ++
                              missing "conversation_id" (in_conversation_id r)))
  end.

(** [requests.post(EMBED_URL, json={"text": t}, timeout=30).json()["vector"]] *)
Definition embed_one (t : string) : Py PyVal :=
  r <- requests_post env EMBED_URL t ;;
  body <- resp_json r ;;
  getitem body "vector".

Definition _embed (texts : list string) : Py (list PyVal) :=
  mapM embed_one texts.

Definition opt_int (v : option Z) : PyVal :=
  match v with Some z => VInt z | None => VNone end.

(** The payload of one item: the four base entries, then
    [payload.update(itm.extra_payload)] when that is truthy. *)
Definition make_payload (itm : Item) : gmap string PyVal :=
  let payload : gmap string PyVal :=
    <["ts" := opt_int (timestamp itm)]>
      (<["conversation_id" := VStr (conversation_id itm)]>
         (<["role" := VStr (role itm)]>
            (<["text" := VStr (text itm)]> ∅))) in
  if truthy_dict (extra_payload itm)
  then dict_update payload (default ∅ (extra_payload itm))
  else payload.

(** One turn of the loop over [zip(items, vectors)]. *)
Definition make_point (iv : Item * PyVal) : Py PointStruct :=
  u <- uuid4 env ;;
  ret (mkPoint u (snd iv) (make_payload (fst iv))).

Definition _store (items : list Item) : Py unit :=
  try_except
    (vectors <- _embed (map text items) ;;
     points <- mapM make_point (zip items vectors) ;;
     upsert env COLLECTION points)
    (fun e => raise (HTTPException 502 (exc_str e))).

(** [POST /memory] and [POST /memory/batch], on validated bodies. *)
Definition ingest_one (item : Item) : Py (gmap string PyVal) :=
  _store [item] ;;;
  ret {[ "status" := VStr "ok" ]}.

Definition ingest_batch (items : list Item) : Py (gmap string PyVal) :=
  _store items ;;;
  ret (<["inserted" := VInt (Z.of_nat (length items))]> {[ "status" := VStr "ok" ]}).

(** The same two routes from the raw bodies: the framework builds the
    models first and calls the handler only when they validate. *)
Definition post_memory (r : ItemIn) : Py (gmap string PyVal) :=
  item <- Item_validate r ;;
  ingest_one item.

Definition post_memory_batch (rs : list ItemIn) : Py (gmap string PyVal) :=
  items <- mapM Item_validate rs ;;
  ingest_batch items.
End WithEnv.
End Ingestor.

(** ** contextualizer/app/qdrant_client.py *)

Module QdrantMemory.
Definition VECTOR_SIZE : Z := 768.
Definition EMBED_HEAD_URL : string := "http://embed_head:8000/embed".
Definition TOP_K_DEFAULT : Z := 6.

(** One element of the list [search] returns. *)
Record Found : Type := mkFound {
  f_text : PyVal;
  f_role : PyVal;
  f_timestamp : PyVal;
  f_score : float
}.

Section WithEnv.
Context (env : Env).

Definition _ensure_collection : Py unit :=
  existing <- get_collections env ;;
  if negb (existsb (fun name => String.eqb name COLLECTION) existing) then
    recreate_collection env COLLECTION VECTOR_SIZE true ;;;
    create_payload_index env COLLECTION "conversation_id" "keyword" ;;;
    create_payload_index env COLLECTION "ts" "integer"
  else ret tt.

Definition embed (t : string) : Py PyVal :=
  resp <- requests_post env EMBED_HEAD_URL t ;;
  raise_for_status resp ;;;
  body <- resp_json resp ;;
  getitem body "vector".

(** The point id: [f"{conversation_id}-{ts}-{role}-{hash(text)}"]. *)
Definition point_id (cid : string) (ts : Z) (rl t : string) : string :=
  cid +:+ "-" +:+ pretty ts +:+ "-" +:+ rl +:+ "-" +:+ pretty (py_hash env t).

Definition make_payload (t cid rl : string) (ts : Z)
    (extra : option (gmap string PyVal)) : gmap string PyVal :=
  let payload : gmap string PyVal :=
    <["ts" := VInt ts]>
      (<["conversation_id" := VStr cid]>
         (<["role" := VStr rl]>
            (<["text" := VStr t]> ∅))) in
  if truthy_dict extra then dict_update payload (default ∅ extra) else payload.

(** The [models.Batch] of one id, one vector and one payload that
    [upsert_memory] builds. *)
Definition make_batch (t cid rl : string) (ts : Z) (vec : PyVal)
    (extra : option (gmap string PyVal)) : Points :=
  PointBatch [point_id cid ts rl t] [vec] [make_payload t cid rl ts extra].

Definition upsert_memory (t cid rl : string) (ts : option Z)
    (extra : option (gmap string PyVal)) : Py unit :=
  ts' <- or_now env ts ;;
  vec <- embed t ;;
  upload_points env COLLECTION (make_batch t cid rl ts' vec extra).

Definition project (h : ScoredPoint) : Py Found :=
  t <- getitem (h_payload h) "text" ;;
  r <- getitem (h_payload h) "role" ;;
  ts <- getitem (h_payload h) "ts" ;;
  ret (mkFound t r ts (h_score h)).

(** The filter is passed as [filter=]. *)
Definition search (vector : list float) (cid : string) (limit : Z) : Py (list Found) :=
  hits <- client_search_kw env KwFilter COLLECTION vector cid limit ;;
  mapM project hits.
End WithEnv.
End QdrantMemory.

(** ** contextualizer/app/qdrant_search.py *)

Module QdrantSearch.
(** One element of the list [top_k] returns. *)
Record ContextItem : Type := mkContext {
  ctx_text : PyVal;
  ctx_role : PyVal;
  ctx_timestamp : PyVal;
  ctx_score : float
}.

Section WithEnv.
Context (env : Env).

Definition project (h : ScoredPoint) : Py ContextItem :=
  t <- getitem (h_payload h) "text" ;;
  ret (mkContext t
         (dict_get (h_payload h) "role" (VStr "unknown"))
         (dict_get (h_payload h) "ts" VNone)
         (h_score h)).

Definition top_k (vector : list float) (cid : string) (k : Z) : Py (list ContextItem) :=
  hits <- client_search env COLLECTION vector cid k ;;
  mapM project hits.
End WithEnv.
End QdrantSearch.

(** ** contextualizer/app/main.py *)

Module ContextApp.
Record ContextReq : Type := mkReq {
  conversation_id : string;
  query_vector : list float;
  k : Z
}.

(** The body of a request before validation. *)
Record ContextReqIn : Type := mkReqIn {
  in_conversation_id : option string;
  in_query_vector : option (list float);
  in_k : option Z
}.

Record ContextResp : Type := mkResp {
  contexts : list QdrantSearch.ContextItem;
  generated_at : Z      (* the clock reading behind the ISO string *)
}.

(** [conversation_id: str = Field(...)]. *)
Definition check_conversation_id (v : option string) : list string :=
  match v with Some _ => [] | None => ["conversation_id"] end.

(** [query_vector: List[float] = Field(..., min_items=3)]. *)
Definition check_query_vector (v : option (list float)) : list string :=
  match v with
  | Some l => if (3 <=? length l)%nat then [] else ["query_vector"]
  | None => ["query_vector"]
  end.

(** [k: int = Field(default=6, gt=0, le=30)]: the default is not validated. *)
Definition check_k (v : option Z) : list string :=
  match v with
  | Some n => if (0 <? n) && (n <=? 30) then [] else ["k"]
  | None => []
  end.

Definition ContextReq_validate (r : ContextReqIn) : Py ContextReq :=
  match (check_conversation_id (in_conversation_id r) ++
         check_query_vector (in_query_vector r) ++
         check_k (in_k r))%list with
  | [] => ret (mkReq (default "" (in_conversation_id r))
                     (default [] (in_query_vector r))
                     (default 6 (in_k r)))
  | errs => raise (ValidationError errs)
  end.

Section WithEnv.
Context (env : Env).

Definition context (req : ContextReq) : Py ContextResp :=
  try_except
    (hits <- QdrantSearch.top_k env (query_vector req) (conversation_id req) (k req) ;;
     now <- time_time env ;;
     ret (mkResp hits now))
    (fun e => raise (HTTPException 500 (exc_str e))).

(** [POST /context] from the raw body. *)
Definition post_context (r : ContextReqIn) : Py ContextResp :=
  req <- ContextReq_validate r ;;
  context req.
End WithEnv.
End ContextApp.

(** ** A concrete outside, for examples

    The embedding service answers every text with the same three numbers,
    the store never fails and finds nothing, tokens and clock readings are
    numbered by the step, and [hash] is the length of the text. *)

Definition demo_vector : PyVal := VList [VFloat 0.5; VFloat 0.25; VFloat 1].

Definition demo_env : Env :=
  mkEnv (fun _ _ => Response 200 (Some {[ "vector" := demo_vector ]}))
        (fun _ => None)
        (fun _ => [])
        (fun n => "uuid-" +:+ pretty n)
        (fun n => 1700000000 + Z.of_nat n)
        (fun t => Z.of_nat (String.length t)).

(** A deployment on which nothing has run yet. *)
Definition fresh_world : World := mkWorld ∅ [] 0.

(** The world after the boot-time [_ensure_collection()] of the ingestor. *)
Definition booted_world : World := snd (Ingestor._ensure_collection demo_env fresh_world).

(** An embedding service that times out at step 5 and answers otherwise. *)
Definition flaky_env : Env :=
  mkEnv (fun n t => if (n =? 5)%nat then PostFails "timeout" else embed_head demo_env n t)
        (qdrant_fault demo_env) (qdrant_hits demo_env) (uuid_src demo_env)
        (clock demo_env) (py_hash demo_env).

Definition item_hello : Ingestor.Item :=
  Ingestor.mkItem "hello" "c1" "user" (Some 1700000100) None.

Definition item_world : Ingestor.Item :=
  Ingestor.mkItem "world" "c1" "assistant" (Some 1700000101) None.

(** An item whose extra payload names the key "text". *)
Definition item_conflict : Ingestor.Item :=
  Ingestor.mkItem "hello" "c1" "user" (Some 1700000100)
    (Some {[ "text" := VStr "overwritten" ]}).

(** A request body with empty [text] and [conversation_id]. *)
Definition body_empty : Ingestor.ItemIn :=
  Ingestor.mkItemIn (Some "") (Some "") None None None.


(** Hits as a search may return them: a full payload, one with only the
    text, and one without text. *)
Definition hit_hello : ScoredPoint :=
  mkHit (<["ts" := VInt 1700000100]> (<["conversation_id" := VStr "c1"]>
           (<["role" := VStr "user"]> {[ "text" := VStr "hello" ]}))) 1.

Definition hit_bare : ScoredPoint := mkHit {[ "text" := VStr "note" ]} 0.5.

Definition hit_no_text : ScoredPoint :=
  mkHit (<["ts" := VInt 1700000100]> {[ "role" := VStr "user" ]}) 0.25.

(** The demo outside, with a store whose every search returns [hs]. *)
Definition env_hits (hs : list ScoredPoint) : Env :=
  mkEnv (embed_head demo_env) (qdrant_fault demo_env) (fun _ => hs) (uuid_src demo_env)
        (clock demo_env) (py_hash demo_env).

(** The demo outside, with a store that refuses every call. *)
Definition env_down : Env :=
  mkEnv (embed_head demo_env) (fun _ => Some "connection refused") (qdrant_hits demo_env)
        (uuid_src demo_env) (clock demo_env) (py_hash demo_env).

Definition demo_query : list float := [0.5; 0.25; 1]%float.

(** ** Vocabulary of the properties *)

Definition is_post (c : Call) : bool :=
  match c with CPost _ _ => true | _ => false end.

Definition is_creation (c : Call) : bool :=
  match c with CRecreateCollection _ _ _ => true | _ => false end.

(** Calls that change the store. *)
Definition is_mutation (c : Call) : bool :=
  match c with
  | CRecreateCollection _ _ _ | CCreatePayloadIndex _ _ _ | CUpsert _ _ => true
  | _ => false
  end.

(** How many collection creations a stretch of the trace holds. *)
Definition creations (tr : list Call) : nat := length (filter (fun c => is_creation c = true) tr).

(** The ids of the points sent to the store, in order. *)
Definition upsert_ids (tr : list Call) : list string :=
  flat_map (fun c => match c with CUpsert _ ps => map p_id ps | _ => [] end) tr.

(** The reply of the embedding service at step [n] for text [t] makes
    [requests.post(...).json()["vector"]] raise. *)
Definition embed_fails (env : Env) (n : nat) (t : string) : bool :=
  match embed_head env n t with
  | PostFails _ => true
  | Response _ None => true
  | Response _ (Some body) => match body !! "vector" with Some _ => false | None => true end
  end.

Definition has_key (k : string) (h : ScoredPoint) : bool :=
  match h_payload h !! k with Some _ => true | None => false end.

(** The number of points held by the collection, 0 when it does not exist. *)
Definition stored_points (w : World) : nat :=
  match qdrant w !! COLLECTION with Some c => size (c_points c) | None => 0%nat end.

(** The points built by the loop of [_store] when it starts at step [n]:
    the i-th point takes the token drawn at step [n + i]. *)
Fixpoint points_from (env : Env) (n : nat) (ivs : list (Ingestor.Item * PyVal))
    : list PointStruct :=
  match ivs with
  | [] => []
  | iv :: rest =>
      mkPoint (uuid_src env n) (snd iv) (Ingestor.make_payload (fst iv))
        :: points_from env (S n) rest
  end.

(** The entry the item itself gives to a payload key. *)
Definition base_entry (t cid rl : string) (ts : PyVal) (k : string) : option PyVal :=
  if decide (k = "ts") then Some ts
  else if decide (k = "conversation_id") then Some (VStr cid)
  else if decide (k = "role") then Some (VStr rl)
  else if decide (k = "text") then Some (VStr t)
  else None.

(** The payload stored under a point id, if any. *)
Definition stored_payload (w : World) (id : string) : option (gmap string PyVal) :=
  match qdrant w !! COLLECTION with
  | Some c => match c_points c !! id with Some p => Some (snd p) | None => None end
  | None => None
  end.

(** The shape the two [_ensure_collection] share; they differ in the
    vector size and in how the membership test is written. *)
Definition ensure_with (env : Env) (vsize : Z) : Py unit :=
  names <- get_collections env ;;
  if negb (bool_decide (COLLECTION ∈ names)) then
    recreate_collection env COLLECTION vsize true ;;;
    create_payload_index env COLLECTION "conversation_id" "keyword" ;;;
    create_payload_index env COLLECTION "ts" "integer"
  else ret tt.

(** [c] is the projection of the hit [h] that [top_k] builds. *)
Definition projects_to (h : ScoredPoint) (c : QdrantSearch.ContextItem) : Prop :=
  h_payload h !! "text" = Some (QdrantSearch.ctx_text c) /\
  QdrantSearch.ctx_role c
    = match h_payload h !! "role" with Some v => v | None => VStr "unknown" end /\
  QdrantSearch.ctx_timestamp c
    = match h_payload h !! "ts" with Some v => v | None => VNone end /\
  QdrantSearch.ctx_score c = h_score h.

(** ** embed_head/app/main.py

    The service behind [EMBED_URL]. [model.encode] is the outside: it
    gives the numbers of a text or raises. *)

Module EmbedHead.
Definition embed (encode : string -> Outcome (list float)) (text : string)
    : Outcome (gmap string PyVal) :=
  match encode text with
  | Return vec => Return {[ "vector" := VList (map VFloat vec) ]}
  | Raise e => Raise (HTTPException 500 (exc_str e))
  end.

(** What the client of the route receives: the returned dict as a 200
    JSON body, an [HTTPException] as its status code with the body
    {"detail": ...}, and any other exception as a 500 without JSON. *)
Definition http_reply (o : Outcome (gmap string PyVal)) : PostReply :=
  match o with
  | Return body => Response 200 (Some body)
  | Raise (HTTPException st d) => Response st (Some {[ "detail" := VStr d ]})
  | Raise _ => Response 500 None
  end.
End EmbedHead.

(** The reply of the embedding service at step [n] for text [t] makes
    [QdrantMemory.embed] raise: as for [embed_fails], and also on an
    error status. *)
Definition memory_embed_fails (env : Env) (n : nat) (t : string) : bool :=
  match embed_head env n t with
  | PostFails _ => true
  | Response st None => true
  | Response st (Some body) =>
      ((400 <=? st) && (st <? 600))
      || match body !! "vector" with Some _ => false | None => true end
  end.

(** The demo outside, with an embedding service that answers every text
    with status 500 and a body that still has a vector. *)
Definition env_status_500 : Env :=
  mkEnv (fun _ _ => Response 500 (Some {[ "vector" := demo_vector ]}))
        (qdrant_fault demo_env) (qdrant_hits demo_env) (uuid_src demo_env)
        (clock demo_env) (py_hash demo_env).

(** The demo outside, with the embedding service of [EmbedHead] on a model
    that encodes "hello" and fails on every other text. *)
Definition demo_encode (t : string) : Outcome (list float) :=
  if String.eqb t "hello" then Return demo_query else Raise (RequestException "CUDA out of memory").

Definition env_served : Env :=
  mkEnv (fun _ t => EmbedHead.http_reply (EmbedHead.embed demo_encode t))
        (qdrant_fault demo_env) (qdrant_hits demo_env) (uuid_src demo_env)
        (clock demo_env) (py_hash demo_env).

(** The demo outside, with a store that refuses the call made at step 2. *)
Definition env_fault_at_2 : Env :=
  mkEnv (embed_head demo_env)
        (fun n => if (n =? 2)%nat then Some "timed out" else None)
        (qdrant_hits demo_env) (uuid_src demo_env) (clock demo_env) (py_hash demo_env).

(** * Properties *)

Section Runs.
Context (env : Env).

Lemma embed_one_run t w :
  Ingestor.embed_one env t w =
  (match embed_head env (tick w) t with
   | PostFails d => Raise (RequestException d)
   | Response _ None => Raise (RequestException "JSONDecodeError")
   | Response _ (Some body) =>
       match body !! "vector" with Some v => Return v | None => Raise (KeyError "vector") end
   end,
   mkWorld (qdrant w) (trace w ++ [CPost EMBED_URL t]) (S (tick w))).
Proof.
  unfold Ingestor.embed_one, requests_post, resp_json, getitem, bind, log, next_tick, ret, raise.
  simpl. destruct (embed_head env (tick w) t) as [d|st [body|]]; simpl; try reflexivity.
  destruct (body !! "vector"); reflexivity.
Qed.

Lemma embed_one_fails t w :
  embed_fails env (tick w) t = true -> exists e, fst (Ingestor.embed_one env t w) = Raise e.
Proof.
  rewrite embed_one_run. unfold embed_fails.
  destruct (embed_head env (tick w) t) as [d|st [body|]]; simpl; eauto.
  destruct (body !! "vector"); [discriminate | eauto].
Qed.

(** The loop of [_embed] leaves the store alone and adds one POST per text
    it reached; it returns only after reaching all of them. *)
Lemma _embed_run texts : forall w r w',
  Ingestor._embed env texts w = (r, w') ->
  qdrant w' = qdrant w /\
  exists n : nat, (n <= length texts)%nat /\
    trace w' = trace w ++ map (CPost EMBED_URL) (take n texts) /\
    tick w' = (tick w + n)%nat /\
    (forall vs, r = Return vs -> n = length texts /\ length vs = length texts).
Proof.
  induction texts as [|t texts IH]; intros w r w' H.
  - cbn in H. injection H as <- <-. split; [reflexivity|].
    exists 0%nat. cbn. rewrite app_nil_r, Nat.add_0_r.
    split; [lia|]. split; [reflexivity|]. split; [reflexivity|].
    intros vs Hvs. injection Hvs as <-. split; reflexivity.
  - unfold Ingestor._embed in H. cbn [mapM] in H. unfold bind at 1 in H.
    rewrite embed_one_run in H.
    set (w1 := mkWorld (qdrant w) (trace w ++ [CPost EMBED_URL t]) (S (tick w))) in *.
    match type of H with (match ?o with _ => _ end) = _ => destruct o as [v|e] eqn:Ho end.
    + unfold bind at 1 in H.
      destruct (mapM (Ingestor.embed_one env) texts w1) as [r1 w2] eqn:Hr.
      apply IH in Hr as (Hq & n & Hn & Htr & Htk & Hret).
      assert (Hw : qdrant w2 = qdrant w /\
                   trace w2 = trace w ++ map (CPost EMBED_URL) (take (S n) (t :: texts)) /\
                   tick w2 = (tick w + S n)%nat).
      { subst w1; cbn in *. rewrite Htr, <- app_assoc. repeat split; auto; lia. }
      destruct Hw as (Hq' & Htr' & Htk').
      destruct r1 as [vs|e]; cbn in H; injection H as <- <-.
      * split; [exact Hq'|]. exists (S n). split; [cbn; lia|].
        split; [exact Htr'|]. split; [exact Htk'|].
        intros vs' Hvs. injection Hvs as <-. destruct (Hret vs eq_refl). cbn. split; lia.
      * split; [exact Hq'|]. exists (S n). split; [cbn; lia|].
        split; [exact Htr'|]. split; [exact Htk'|]. discriminate.
    + injection H as <- <-. split; [reflexivity|]. exists 1%nat. cbn [length take map].
      rewrite take_0. subst w1; cbn. split; [lia|]. split; [reflexivity|].
      split; [lia|]. discriminate.
Qed.

(** If the reply prepared for the i-th text is a failing one, the loop
    raises (at that text or earlier). *)
Lemma _embed_fails texts : forall w (i : nat) t,
  texts !! i = Some t ->
  embed_fails env (tick w + i) t = true ->
  exists e w', Ingestor._embed env texts w = (Raise e, w').
Proof.
  induction texts as [|t0 texts IH]; intros w i t Hi Hf; [discriminate|].
  unfold Ingestor._embed. cbn [mapM]. unfold bind at 1.
  destruct (Ingestor.embed_one env t0 w) as [r w1] eqn:H1.
  destruct r as [v|e]; [|eauto].
  destruct i as [|i].
  - cbn in Hi. injection Hi as ->. rewrite Nat.add_0_r in Hf.
    apply embed_one_fails in Hf as [e He]. rewrite H1 in He. discriminate.
  - cbn in Hi. assert (Htk : tick w1 = S (tick w)).
    { rewrite embed_one_run in H1. injection H1 as _ <-. reflexivity. }
    destruct (IH w1 i t Hi) as (e & w' & He).
    { rewrite Htk. replace (S (tick w) + i)%nat with (tick w + S i)%nat by lia. exact Hf. }
    unfold Ingestor._embed in He. unfold bind. rewrite He. eauto.
Qed.
Lemma points_from_length ivs : forall n, length (points_from env n ivs) = length ivs.
Proof. induction ivs as [|iv ivs IH]; intros n; cbn; [reflexivity | now rewrite IH]. Qed.

Lemma points_from_payload ivs : forall n,
  map p_payload (points_from env n ivs) = map (fun iv => Ingestor.make_payload (fst iv)) ivs.
Proof. induction ivs as [|iv ivs IH]; intros n; cbn; [reflexivity | now rewrite IH]. Qed.

Lemma points_from_ids ivs : forall n,
  map p_id (points_from env n ivs) = map (uuid_src env) (seq n (length ivs)).
Proof. induction ivs as [|iv ivs IH]; intros n; cbn; [reflexivity | now rewrite IH]. Qed.

Lemma make_points_run ivs : forall w,
  mapM (Ingestor.make_point env) ivs w =
  (Return (points_from env (tick w) ivs),
   mkWorld (qdrant w) (trace w) (tick w + length ivs)).
Proof.
  induction ivs as [|iv ivs IH]; intros w.
  - cbn. rewrite Nat.add_0_r. destruct w; reflexivity.
  - cbn [mapM]. unfold bind at 1. unfold Ingestor.make_point at 1, uuid4, bind, next_tick, ret.
    cbn. unfold bind. rewrite IH. cbn. do 3 f_equal. lia.
Qed.

(** What one call of the Qdrant client does to the trace and the step. *)
Lemma qdrant_call_run c w :
  qdrant_call env c w =
  (match qdrant_fault env (tick w) with
   | Some d => Raise (QdrantException d)
   | None => Return (tick w)
   end,
   mkWorld (qdrant w) (trace w ++ [c]) (S (tick w))).
Proof.
  unfold qdrant_call, bind, log, next_tick, ret, raise. cbn.
  destruct (qdrant_fault env (tick w)); reflexivity.
Qed.

Lemma upsert_run name ps w :
  upsert env name ps w =
  match qdrant_fault env (tick w), qdrant w !! name with
  | Some d, _ =>
      (Raise (QdrantException d), mkWorld (qdrant w) (trace w ++ [CUpsert name ps]) (S (tick w)))
  | None, None =>
      (Raise (QdrantException "collection not found"),
       mkWorld (qdrant w) (trace w ++ [CUpsert name ps]) (S (tick w)))
  | None, Some c =>
      (Return tt,
       mkWorld (<[name := mkCollection (c_vector_size c) (c_on_disk_payload c) (c_indexes c)
                            (add_points ps (c_points c))]> (qdrant w))
               (trace w ++ [CUpsert name ps]) (S (tick w)))
  end.
Proof.
  unfold upsert. unfold bind at 1. rewrite qdrant_call_run.
  destruct (qdrant_fault env (tick w)); [reflexivity|].
  unfold bind, get_store, put_store, raise. cbn.
  destruct (qdrant w !! name); reflexivity.
Qed.

Lemma upsert_trace name ps w :
  trace (snd (upsert env name ps w)) = trace w ++ [CUpsert name ps].
Proof.
  rewrite upsert_run. destruct (qdrant_fault env (tick w)), (qdrant w !! name); reflexivity.
Qed.

Lemma _store_unfold items w :
  Ingestor._store env items w =
  match Ingestor._embed env (map Ingestor.text items) w with
  | (Return vs, w1) =>
      match upsert env COLLECTION (points_from env (tick w1) (zip items vs))
              (mkWorld (qdrant w1) (trace w1) (tick w1 + length (zip items vs))) with
      | (Return _, w3) => (Return tt, w3)
      | (Raise e, w3) => (Raise (HTTPException 502 (exc_str e)), w3)
      end
  | (Raise e, w1) => (Raise (HTTPException 502 (exc_str e)), w1)
  end.
Proof.
  unfold Ingestor._store, try_except. unfold bind at 1.
  destruct (Ingestor._embed env (map Ingestor.text items) w) as [[vs|e] w1]; [|reflexivity].
  unfold bind at 1. rewrite make_points_run.
  destruct (upsert env COLLECTION _ _) as [[[]|e] w3]; reflexivity.
Qed.

(** The two ways a run of [_store] can go: the embedding loop raised and
    nothing else happened, or it returned one vector per item and exactly
    one upsert followed. *)
Lemma _store_run items w :
  (exists e w1,
      Ingestor._embed env (map Ingestor.text items) w = (Raise e, w1) /\
      Ingestor._store env items w = (Raise (HTTPException 502 (exc_str e)), w1))
  \/
  (exists vs w1,
      Ingestor._embed env (map Ingestor.text items) w = (Return vs, w1) /\
      length vs = length items /\
      let pts := points_from env (tick w1) (zip items vs) in
      let w2 := mkWorld (qdrant w1) (trace w1) (tick w1 + length items) in
      Ingestor._store env items w =
      (match fst (upsert env COLLECTION pts w2) with
       | Return _ => Return tt
       | Raise e => Raise (HTTPException 502 (exc_str e))
       end,
       snd (upsert env COLLECTION pts w2))).
Proof.
  rewrite _store_unfold.
  destruct (Ingestor._embed env (map Ingestor.text items) w) as [[vs|e] w1] eqn:He.
  - right. exists vs, w1. split; [reflexivity|].
    apply _embed_run in He as (_ & n & _ & _ & _ & Hret).
    destruct (Hret vs eq_refl) as [_ Hlen]. rewrite length_map in Hlen.
    split; [exact Hlen|]. cbn zeta.
    rewrite length_zip_with, Hlen, Nat.min_id.
    destruct (upsert env COLLECTION _ _) as [[[]|e] w3]; reflexivity.
  - left. exists e, w1. split; reflexivity.
Qed.
End Runs.

Lemma forallb_is_post url texts : forallb is_post (map (CPost url) texts) = true.
Proof. induction texts as [|t texts IH]; cbn; [reflexivity | exact IH]. Qed.

(** C2. In every run of [_store] on a batch of N items the outbound calls
    are POSTs to the embedding service followed by at most one upsert, and
    when the upsert is there it comes after the N POSTs, one per item in
    order, and carries N points. If the reply prepared for the i-th item's
    text is a failing one, the run raises, the store is left as it was and
    no upsert was issued: no Memory of the batch is stored. *)
Theorem batch_embeds_first_all_or_nothing (env : Env) (items : list Ingestor.Item) (w : World) :
  let r := Ingestor._store env items w in
  (exists posts ups,
      trace (snd r) = trace w ++ posts ++ ups /\
      forallb is_post posts = true /\
      (ups = [] \/
       exists pts, ups = [CUpsert COLLECTION pts] /\
                   length pts = length items /\
                   posts = map (CPost EMBED_URL) (map Ingestor.text items)))
  /\
  (forall (i : nat) (itm : Ingestor.Item),
      items !! i = Some itm ->
      embed_fails env (tick w + i) (Ingestor.text itm) = true ->
      (exists e, fst r = Raise e) /\
      qdrant (snd r) = qdrant w /\
      stored_points (snd r) = stored_points w /\
      exists posts, trace (snd r) = trace w ++ posts /\ forallb is_post posts = true).
Proof.
  intros r. subst r.
  destruct (_store_run env items w) as [(e & w1 & He & Hs) | (vs & w1 & He & Hlen & Hs)].
  - rewrite Hs. cbn [fst snd].
    pose proof (_embed_run env _ _ _ _ He) as (Hq & n & _ & Htr & _ & _).
    split.
    + exists (map (CPost EMBED_URL) (take n (map Ingestor.text items))), [].
      rewrite app_nil_r. split; [exact Htr|]. split; [apply forallb_is_post | now left].
    + intros i itm _ _. split; [eauto|]. split; [exact Hq|].
      split; [unfold stored_points; now rewrite Hq|].
      eexists. split; [exact Htr | apply forallb_is_post].
  - cbn zeta in Hs. rewrite Hs. cbn [fst snd]. clear Hs.
    pose proof (_embed_run env _ _ _ _ He) as (Hq & n & _ & Htr & _ & Hret).
    destruct (Hret vs eq_refl) as [-> _]. rewrite firstn_all in Htr.
    split.
    + exists (map (CPost EMBED_URL) (map Ingestor.text items)).
      eexists. rewrite upsert_trace. cbn [trace]. rewrite Htr, <- app_assoc.
      split; [reflexivity|]. split; [apply forallb_is_post|]. right.
      eexists. split; [reflexivity|]. split; [|reflexivity].
      rewrite points_from_length, length_zip_with, Hlen. apply Nat.min_id.
    + intros i itm Hi Hf. exfalso.
      destruct (_embed_fails env (map Ingestor.text items) w i (Ingestor.text itm))
        as (e & w' & He'); [| exact Hf |].
      * rewrite list_lookup_fmap, Hi. reflexivity.
      * rewrite He in He'. discriminate.
Qed.

(** Witness for C2: the second of two items hits the timeout. *)
Lemma batch_embeds_first_all_or_nothing_witness :
  (exists e, fst (Ingestor._store flaky_env [item_hello; item_world] booted_world) = Raise e) /\
  qdrant (snd (Ingestor._store flaky_env [item_hello; item_world] booted_world))
    = qdrant booted_world /\
  stored_points (snd (Ingestor._store flaky_env [item_hello; item_world] booted_world))
    = stored_points booted_world /\
  exists posts,
    trace (snd (Ingestor._store flaky_env [item_hello; item_world] booted_world))
      = trace booted_world ++ posts /\
    forallb is_post posts = true.
Proof.
  apply (proj2 (batch_embeds_first_all_or_nothing flaky_env [item_hello; item_world] booted_world)
           1%nat item_world).
  - reflexivity.
  - vm_compute. reflexivity.
Defined.

Section WritePath.
Context (env : Env).

Lemma or_now_run v w :
  or_now env v w =
  if truthy_int v then (Return (default 0 v), w)
  else (Return (clock env (tick w)), mkWorld (qdrant w) (trace w) (S (tick w))).
Proof.
  destruct v as [z|]; cbn; [destruct (z =? 0)|]; reflexivity.
Qed.

Lemma upsert_ids_app tr1 tr2 : upsert_ids (tr1 ++ tr2) = upsert_ids tr1 ++ upsert_ids tr2.
Proof. unfold upsert_ids. apply flat_map_app. Qed.

Lemma upsert_ids_posts url texts : upsert_ids (map (CPost url) texts) = [].
Proof. induction texts as [|t texts IH]; cbn; [reflexivity | exact IH]. Qed.

(** A run of [_store] that returns: one POST per item, then one upsert of
    one point per item, each with the token of its own draw and the payload
    built from its item; the collection was there and received the points. *)
Lemma _store_returns items w w' :
  Ingestor._store env items w = (Return tt, w') ->
  exists vs c,
    length vs = length items /\
    trace w' = trace w ++ map (CPost EMBED_URL) (map Ingestor.text items)
                 ++ [CUpsert COLLECTION (points_from env (tick w + length items) (zip items vs))] /\
    tick w' = S (tick w + length items + length items) /\
    qdrant w !! COLLECTION = Some c /\
    qdrant w' = <[COLLECTION := mkCollection (c_vector_size c) (c_on_disk_payload c) (c_indexes c)
                     (add_points (points_from env (tick w + length items) (zip items vs))
                                 (c_points c))]> (qdrant w).
Proof.
  intros H.
  destruct (_store_run env items w) as [(e & w1 & _ & Hs) | (vs & w1 & He & Hlen & Hs)].
  - rewrite Hs in H. discriminate.
  - cbn zeta in Hs. rewrite Hs in H. clear Hs.
    pose proof (_embed_run env _ _ _ _ He) as (Hq & n & _ & Htr & Htk & Hret).
    destruct (Hret vs eq_refl) as [-> _]. rewrite firstn_all in Htr.
    rewrite length_map in Htk.
    rewrite upsert_run in H. cbn [qdrant tick trace] in H. rewrite Hq, Htk in H.
    destruct (qdrant_fault env (tick w + length items + length items)); [discriminate|].
    destruct (qdrant w !! COLLECTION) as [c|] eqn:Hc; [|discriminate].
    cbn in H. injection H as <-. exists vs, c. cbn.
    split; [exact Hlen|]. split; [now rewrite Htr, <- app_assoc|].
    split; [reflexivity|]. split; reflexivity.
Qed.
End WritePath.

Lemma dict_update_lookup (d e : gmap string PyVal) k :
  dict_update d e !! k = match e !! k with Some v => Some v | None => d !! k end.
Proof.
  unfold dict_update. rewrite lookup_union.
  destruct (e !! k), (d !! k); reflexivity.
Qed.

Lemma base_payload_lookup t cid rl ts k :
  (<["ts" := ts]> (<["conversation_id" := VStr cid]> (<["role" := VStr rl]>
     (<["text" := VStr t]> (∅ : gmap string PyVal))))) !! k
  = base_entry t cid rl ts k.
Proof.
  unfold base_entry. repeat case_decide; subst; simplify_map_eq; reflexivity.
Qed.

(** The case of an extra payload [e] that is there: the update is skipped
    for an empty dict, and otherwise looked up entry by entry. *)
Ltac updated_payload_cases e k :=
  cbn [default from_option id negb];
  case_bool_decide; cbn [negb];
  [ subst e; rewrite lookup_empty; apply base_payload_lookup
  | rewrite dict_update_lookup; destruct (e !! k);
    [reflexivity | apply base_payload_lookup] ].

Lemma ingestor_payload_lookup (itm : Ingestor.Item) k :
  Ingestor.make_payload itm !! k =
  match Ingestor.extra_payload itm with
  | Some e =>
      match e !! k with
      | Some v => Some v
      | None => base_entry (Ingestor.text itm) (Ingestor.conversation_id itm) (Ingestor.role itm)
                  (Ingestor.opt_int (Ingestor.timestamp itm)) k
      end
  | None => base_entry (Ingestor.text itm) (Ingestor.conversation_id itm) (Ingestor.role itm)
              (Ingestor.opt_int (Ingestor.timestamp itm)) k
  end.
Proof.
  unfold Ingestor.make_payload, truthy_dict.
  destruct (Ingestor.extra_payload itm) as [e|];
    [updated_payload_cases e k | apply base_payload_lookup].
Qed.

Lemma memory_payload_lookup t cid rl ts (extra : option (gmap string PyVal)) k :
  QdrantMemory.make_payload t cid rl ts extra !! k =
  match extra with
  | Some e => match e !! k with Some v => Some v | None => base_entry t cid rl (VInt ts) k end
  | None => base_entry t cid rl (VInt ts) k
  end.
Proof.
  unfold QdrantMemory.make_payload, truthy_dict.
  destruct extra as [e|]; [updated_payload_cases e k | apply base_payload_lookup].
Qed.

(** A key that the extra payload lacks keeps the item's own entry. *)
Lemma ingestor_payload_own_entry (itm : Ingestor.Item) k :
  match Ingestor.extra_payload itm with Some e => e !! k = None | None => True end ->
  Ingestor.make_payload itm !! k =
  base_entry (Ingestor.text itm) (Ingestor.conversation_id itm) (Ingestor.role itm)
    (Ingestor.opt_int (Ingestor.timestamp itm)) k.
Proof.
  intros Hk. rewrite ingestor_payload_lookup.
  destruct (Ingestor.extra_payload itm) as [e|]; [rewrite Hk|]; reflexivity.
Qed.

(** C1, as the code has it. The stored payload is the dict of the four
    entries text, role, conversation_id and ts, updated with [extra_payload]:
    on a key that both hold, the value of [extra_payload] is the one stored,
    and a key that [extra_payload] lacks keeps the item's own entry. This
    is so in [_store], whose upsert carries exactly these payloads, and in
    the payload that [upsert_memory] builds. *)
Theorem extra_payload_takes_precedence (env : Env) :
  (forall (itm : Ingestor.Item) (e : gmap string PyVal) (k : string) (v : PyVal),
      Ingestor.extra_payload itm = Some e -> e !! k = Some v ->
      Ingestor.make_payload itm !! k = Some v)
  /\
  (forall (itm : Ingestor.Item) (k : string),
      match Ingestor.extra_payload itm with Some e => e !! k = None | None => True end ->
      Ingestor.make_payload itm !! k =
      base_entry (Ingestor.text itm) (Ingestor.conversation_id itm) (Ingestor.role itm)
        (Ingestor.opt_int (Ingestor.timestamp itm)) k)
  /\
  (forall items w w',
      Ingestor._store env items w = (Return tt, w') ->
      exists pts, last (trace w') = Some (CUpsert COLLECTION pts) /\
                  map p_payload pts = map Ingestor.make_payload items)
  /\
  (forall t cid rl ts (e : gmap string PyVal) k v,
      e !! k = Some v ->
      QdrantMemory.make_payload t cid rl ts (Some e) !! k = Some v)
  /\
  (forall t cid rl ts (extra : option (gmap string PyVal)) k,
      match extra with Some e => e !! k = None | None => True end ->
      QdrantMemory.make_payload t cid rl ts extra !! k = base_entry t cid rl (VInt ts) k).
Proof.
  split; [|split; [|split; [|split]]].
  - intros itm e k v He Hk. rewrite ingestor_payload_lookup, He, Hk. reflexivity.
  - intros itm k Hk. apply ingestor_payload_own_entry, Hk.
  - intros items w w' H.
    apply _store_returns in H as (vs & c & Hlen & Htr & _).
    eexists. split.
    + rewrite Htr, !app_assoc. apply last_snoc.
    + rewrite points_from_payload.
      clear Htr. revert vs Hlen. induction items as [|itm items IH]; intros [|v vs] Hlen;
        try discriminate; [reflexivity|].
      cbn. f_equal. apply IH. now injection Hlen.
  - intros t cid rl ts e k v Hk. rewrite memory_payload_lookup, Hk. reflexivity.
  - intros t cid rl ts extra k Hk. rewrite memory_payload_lookup.
    destruct extra as [e|]; [rewrite Hk|]; reflexivity.
Qed.

(** Witness for C1: the conflicting item, on the key "text". *)
Lemma extra_payload_takes_precedence_witness :
  Ingestor.make_payload item_conflict !! "text" = Some (VStr "overwritten").
Proof.
  apply (proj1 (extra_payload_takes_precedence demo_env) item_conflict
           {[ "text" := VStr "overwritten" ]} "text" (VStr "overwritten")).
  - reflexivity.
  - vm_compute. reflexivity.
Defined.

(** Counterexample to C1 as stated: an item with text "hello" whose
    extra payload has the key "text" is stored by [_store] with the text of
    the extra payload, and the payload that [upsert_memory] builds for the
    same arguments holds that text too. *)
Lemma reserved_text_is_overwritten :
  Ingestor.text item_conflict = "hello" /\
  fst (Ingestor._store demo_env [item_conflict] booted_world) = Return tt /\
  match stored_payload (snd (Ingestor._store demo_env [item_conflict] booted_world)) "uuid-5" with
  | Some p => p !! "text"
  | None => None
  end = Some (VStr "overwritten") /\
  QdrantMemory.make_payload "hello" "c1" "user" 1700000100
    (Some {[ "text" := VStr "overwritten" ]}) !! "text" = Some (VStr "overwritten").
Proof. vm_compute. repeat split; reflexivity. Qed.

(** Validation of an [Item] reads the clock at most once and sends nothing;
    it fails exactly when [text] or [conversation_id] is absent. *)
Lemma Item_validate_run env (r : Ingestor.ItemIn) w :
  Ingestor.Item_validate env r w =
  (match Ingestor.in_text r, Ingestor.in_conversation_id r with
   | Some t, Some c =>
       Return (Ingestor.mkItem t c (default "user" (Ingestor.in_role r))
                 (Some (if truthy_int (Ingestor.in_timestamp r)
                        then default 0 (Ingestor.in_timestamp r)
                        else clock env (tick w)))
                 (Ingestor.in_extra_payload r))
   | _, _ =>
       Raise (ValidationError (Ingestor.missing "text" (Ingestor.in_text r) ++
                               Ingestor.missing "conversation_id" (Ingestor.in_conversation_id r)))
   end,
   mkWorld (qdrant w) (trace w)
     (if truthy_int (Ingestor.in_timestamp r) then tick w else S (tick w))).
Proof.
  unfold Ingestor.Item_validate, Ingestor._ts. unfold bind at 1. rewrite or_now_run.
  destruct (truthy_int (Ingestor.in_timestamp r));
    destruct (Ingestor.in_text r), (Ingestor.in_conversation_id r), w; reflexivity.
Qed.

(** The first call of [_store] on one item is the POST of its text. *)
Lemma _store_one_first_call env (item : Ingestor.Item) w :
  exists rest,
    trace (snd (Ingestor._store env [item] w))
    = trace w ++ CPost EMBED_URL (Ingestor.text item) :: rest.
Proof.
  rewrite _store_unfold. unfold Ingestor._embed. cbn [map mapM].
  unfold bind at 1. rewrite embed_one_run.
  match goal with |- context [match ?o with Return _ => _ | Raise _ => _ end] =>
    destruct o as [v|e] end.
  - unfold bind, ret. cbn [mapM].
    match goal with |- context [upsert env ?n ?ps ?w0] =>
      pose proof (upsert_trace env n ps w0) as Ht;
      destruct (upsert env n ps w0) as [[[]|e] w3] end;
      cbn in *; rewrite Ht, <- app_assoc; eexists; reflexivity.
  - cbn. exists []. reflexivity.
Qed.

(** C3, as the code has it. [Item] requires [text] and [conversation_id]
    to be present and checks nothing about their content. A body that lacks
    one of them fails with [ValidationError] before any outbound call and
    the store is untouched. A body that has both, empty or not, validates
    with the strings unchanged, and the handler then posts the text to the
    embedding service as its first call; when the handler returns, the
    calls it made are that POST and one upsert of a point built from the
    item. *)
Theorem item_validation_checks_presence_only (env : Env) (r : Ingestor.ItemIn) (w : World) :
  (Ingestor.in_text r = None \/ Ingestor.in_conversation_id r = None ->
   exists f fs w',
     Ingestor.post_memory env r w = (Raise (ValidationError (f :: fs)), w') /\
     trace w' = trace w /\ qdrant w' = qdrant w)
  /\
  (forall t c,
     Ingestor.in_text r = Some t -> Ingestor.in_conversation_id r = Some c ->
     exists item w1,
       Ingestor.Item_validate env r w = (Return item, w1) /\
       Ingestor.text item = t /\ Ingestor.conversation_id item = c /\
       (exists rest,
          trace (snd (Ingestor.post_memory env r w)) = trace w ++ CPost EMBED_URL t :: rest) /\
       (forall out w', Ingestor.post_memory env r w = (Return out, w') ->
          exists pt, trace w' = trace w ++ [CPost EMBED_URL t; CUpsert COLLECTION [pt]] /\
                     p_payload pt = Ingestor.make_payload item)).
Proof.
  pose proof (Item_validate_run env r w) as Hv.
  split.
  - intros Hmiss. unfold Ingestor.post_memory, bind. rewrite Hv.
    destruct (Ingestor.in_text r) as [t|], (Ingestor.in_conversation_id r) as [c|];
      cbn; try (do 3 eexists; split; [reflexivity | split; reflexivity]).
    destruct Hmiss; discriminate.
  - intros t c Ht Hc. rewrite Ht, Hc in Hv.
    do 2 eexists. split; [exact Hv|]. split; [reflexivity|]. split; [reflexivity|].
    unfold Ingestor.post_memory, bind. rewrite Hv.
    unfold Ingestor.ingest_one, bind.
    match goal with |- context [Ingestor._store env [?i] ?w0] =>
      set (item := i); set (w1 := w0) end.
    destruct (_store_one_first_call env item w1) as [rest Hrest].
    destruct (Ingestor._store env [item] w1) as [[[]|e] w2] eqn:Hs; cbn [snd] in *.
    + split; [exists rest; exact Hrest|].
      intros out w' Hout. injection Hout as _ <-.
      apply _store_returns in Hs as (vs & col & Hlen & Htr2 & _).
      destruct vs as [|v [|? ?]]; try discriminate. cbn in Htr2.
      eexists. split; [exact Htr2 | reflexivity].
    + split; [exists rest; exact Hrest | intros out w' Hout; discriminate].
Qed.

(** Witness for C3: a body without [text], and the body with the two empty
    strings. *)
Lemma item_validation_checks_presence_only_witness :
  (exists f fs w',
     Ingestor.post_memory demo_env (Ingestor.mkItemIn None (Some "c1") None None None) booted_world
       = (Raise (ValidationError (f :: fs)), w') /\
     trace w' = trace booted_world /\ qdrant w' = qdrant booted_world)
  /\
  (exists item w1,
     Ingestor.Item_validate demo_env body_empty booted_world = (Return item, w1) /\
     Ingestor.text item = "" /\ Ingestor.conversation_id item = "" /\
     (exists rest,
        trace (snd (Ingestor.post_memory demo_env body_empty booted_world))
        = trace booted_world ++ CPost EMBED_URL "" :: rest) /\
     (forall out w', Ingestor.post_memory demo_env body_empty booted_world = (Return out, w') ->
        exists pt, trace w' = trace booted_world ++ [CPost EMBED_URL ""; CUpsert COLLECTION [pt]] /\
                   p_payload pt = Ingestor.make_payload item)).
Proof.
  split.
  - apply (proj1 (item_validation_checks_presence_only demo_env
                    (Ingestor.mkItemIn None (Some "c1") None None None) booted_world)).
    left. reflexivity.
  - apply (proj2 (item_validation_checks_presence_only demo_env body_empty booted_world) "" "");
      reflexivity.
Defined.

(** Counterexample to C3 as stated: the body with empty [text] and empty
    [conversation_id] is accepted; its text is posted to the embedding
    service and one point with the empty strings is stored. *)
Lemma empty_item_is_embedded_and_stored :
  fst (Ingestor.post_memory demo_env body_empty booted_world)
    = Return {[ "status" := VStr "ok" ]} /\
  trace (snd (Ingestor.post_memory demo_env body_empty booted_world))
    = trace booted_world ++
      [CPost EMBED_URL "";
       CUpsert COLLECTION
         [mkPoint "uuid-6" demo_vector
            (Ingestor.make_payload (Ingestor.mkItem "" "" "user" (Some 1700000004) None))]] /\
  stored_points booted_world = 0%nat /\
  stored_points (snd (Ingestor.post_memory demo_env body_empty booted_world)) = 1%nat /\
  match stored_payload (snd (Ingestor.post_memory demo_env body_empty booted_world)) "uuid-6" with
  | Some p => (p !! "text", p !! "conversation_id")
  | None => (None, None)
  end = (Some (VStr ""), Some (VStr "")).
Proof. vm_compute. repeat split; reflexivity. Qed.




(** ** Identity of the stored points *)

Lemma NoDup_map_injective {A B} (f : A -> B) (l : list A) :
  (forall x y, f x = f y -> x = y) -> NoDup l -> NoDup (map f l).
Proof.
  intros Hinj Hl. induction Hl as [|x l Hx Hl IH]; cbn; constructor; [|exact IH].
  intros Hin. apply list_elem_of_In, in_map_iff in Hin as (y & Hy & Hin).
  apply Hinj in Hy. subst y. apply Hx. now apply list_elem_of_In.
Qed.

Lemma NoDup_seq_apart (a n b m : nat) :
  (a + n <= b)%nat -> NoDup (seq a n ++ seq b m).
Proof.
  intros Hab. apply NoDup_app. split; [apply NoDup_seq|]. split; [|apply NoDup_seq].
  intros x Ha Hb. apply elem_of_seq in Ha, Hb. lia.
Qed.

Lemma upsert_ids_store env n (items : list Ingestor.Item) (vs : list PyVal) url :
  length vs = length items ->
  upsert_ids (map (CPost url) (map Ingestor.text items)
                ++ [CUpsert COLLECTION (points_from env n (zip items vs))])
  = map (uuid_src env) (seq n (length items)).
Proof.
  intros Hlen. rewrite upsert_ids_app, upsert_ids_posts. cbn.
  rewrite app_nil_r, points_from_ids, length_zip_with, Hlen, Nat.min_id. reflexivity.
Qed.

(** [embed] of the wrapper class always logs its POST. *)
Lemma memory_embed_run env t w :
  exists o, QdrantMemory.embed env t w =
            (o, mkWorld (qdrant w) (trace w ++ [CPost QdrantMemory.EMBED_HEAD_URL t]) (S (tick w))).
Proof.
  unfold QdrantMemory.embed, requests_post, raise_for_status, resp_json, getitem,
    bind, log, next_tick, ret, raise. cbn.
  destruct (embed_head env (tick w) t) as [d|st [body|]]; cbn; eauto;
    destruct ((400 <=? st) && (st <? 600)); eauto.
  destruct (body !! "vector"); eauto.
Qed.

Lemma points_from_lookup env ivs : forall n (i : nat) iv,
  ivs !! i = Some iv ->
  points_from env n ivs !! i
  = Some (mkPoint (uuid_src env (n + i)) (snd iv) (Ingestor.make_payload (fst iv))).
Proof.
  induction ivs as [|iv0 ivs IH]; intros n i iv Hi; [discriminate|].
  destruct i as [|i]; cbn in Hi.
  - injection Hi as <-. cbn. rewrite Nat.add_0_r. reflexivity.
  - etransitivity; [exact (IH (S n) i iv Hi)|]. do 3 f_equal. lia.
Qed.

Lemma add_points_other (ps : list PointStruct) : forall m id,
  id ∉ map p_id ps -> add_points ps m !! id = m !! id.
Proof.
  induction ps as [|p ps IH]; intros m id Hid; [reflexivity|].
  cbn [map] in Hid. apply not_elem_of_cons in Hid as [Hne Hid].
  unfold add_points. cbn [fold_left]. fold (add_points ps (<[p_id p := (p_vector p, p_payload p)]> m)).
  rewrite IH by exact Hid. apply lookup_insert_ne. congruence.
Qed.

Lemma add_points_lookup (ps : list PointStruct) : forall m (i : nat) p,
  NoDup (map p_id ps) -> ps !! i = Some p ->
  add_points ps m !! p_id p = Some (p_vector p, p_payload p).
Proof.
  induction ps as [|p0 ps IH]; intros m i p Hnd Hi; [discriminate|].
  cbn [map] in Hnd. apply NoDup_cons in Hnd as [Hnot Hnd].
  unfold add_points. cbn [fold_left].
  fold (add_points ps (<[p_id p0 := (p_vector p0, p_payload p0)]> m)).
  destruct i as [|i]; cbn in Hi.
  - injection Hi as <-. rewrite add_points_other by exact Hnot. apply lookup_insert_eq.
  - exact (IH _ i p Hnd Hi).
Qed.

(** Every run of [upsert_memory] ends in an exception: the one of the
    embedding, or the one of [upload_points] on the batch. The POST is its
    only outbound call and the store is left as it was. *)
Lemma upsert_memory_run env t cid rl ts extra w :
  exists e w',
    QdrantMemory.upsert_memory env t cid rl ts extra w = (Raise e, w') /\
    qdrant w' = qdrant w /\
    trace w' = trace w ++ [CPost QdrantMemory.EMBED_HEAD_URL t].
Proof.
  unfold QdrantMemory.upsert_memory. unfold bind at 1. rewrite or_now_run.
  set (w0 := if truthy_int ts then w else mkWorld (qdrant w) (trace w) (S (tick w))).
  assert (Hw0 : trace w0 = trace w /\ qdrant w0 = qdrant w)
    by (subst w0; destruct (truthy_int ts); split; reflexivity).
  destruct Hw0 as [Htr Hq].
  destruct (memory_embed_run env t w0) as [o Ho].
  assert (Hgo : exists e w',
            bind (QdrantMemory.embed env t)
              (fun vec => upload_points env COLLECTION
                 (QdrantMemory.make_batch env t cid rl
                    (if truthy_int ts then default 0 ts else clock env (tick w)) vec extra)) w0
            = (Raise e, w') /\ qdrant w' = qdrant w /\
              trace w' = trace w ++ [CPost QdrantMemory.EMBED_HEAD_URL t]).
  { unfold bind. rewrite Ho. destruct o as [vec|e]; do 2 eexists;
      (split; [reflexivity|]); cbn; rewrite Htr, Hq; split; reflexivity. }
  subst w0. destruct (truthy_int ts); exact Hgo.
Qed.

(** After a [_store] that returned, the payload of the i-th item is found
    under its token. *)
Lemma store_lookup env (items : list Ingestor.Item) w w' (i : nat) itm :
  (forall m n : nat, uuid_src env m = uuid_src env n -> m = n) ->
  Ingestor._store env items w = (Return tt, w') ->
  items !! i = Some itm ->
  stored_payload w' (uuid_src env (tick w + length items + i)) = Some (Ingestor.make_payload itm).
Proof.
  intros Hinj H Hi.
  apply _store_returns in H as (vs & c & Hlen & _ & _ & Hc & Hq).
  unfold stored_payload. rewrite Hq, lookup_insert_eq. cbn [c_points].
  destruct (vs !! i) as [v|] eqn:Hv.
  2:{ apply lookup_ge_None in Hv. apply lookup_lt_Some in Hi. lia. }
  assert (Hp : points_from env (tick w + length items) (zip items vs) !! i
               = Some (mkPoint (uuid_src env (tick w + length items + i)) v
                         (Ingestor.make_payload itm))).
  { apply (points_from_lookup env _ _ i (itm, v)). rewrite lookup_zip_with, Hi, Hv. reflexivity. }
  assert (Hnd : NoDup (map p_id (points_from env (tick w + length items) (zip items vs)))).
  { rewrite points_from_ids. apply NoDup_map_injective; [exact Hinj | apply NoDup_seq]. }
  pose proof (add_points_lookup _ (c_points c) i _ Hnd Hp) as Hl.
  cbn [p_id p_vector p_payload] in Hl. rewrite Hl. reflexivity.
Qed.

(** A [_store] that returned left every point under another id as it was. *)
Lemma store_frame env (items : list Ingestor.Item) w w' id :
  Ingestor._store env items w = (Return tt, w') ->
  id ∉ map (uuid_src env) (seq (tick w + length items) (length items)) ->
  stored_payload w' id = stored_payload w id.
Proof.
  intros H Hid.
  apply _store_returns in H as (vs & c & Hlen & _ & _ & Hc & Hq).
  unfold stored_payload. rewrite Hq, lookup_insert_eq, Hc. cbn [c_points].
  rewrite add_points_other; [reflexivity|].
  rewrite points_from_ids, length_zip_with, Hlen, Nat.min_id. exact Hid.
Qed.

(** C4. Every point that reaches the store has a token of its own. The
    only write path that stores is [_store], and it gives each point the
    value of a fresh [uuid4()]: while the tokens drawn do not repeat, the
    points of two successive batches all have different ids, whatever the
    items, and after the second batch every item of both batches is found
    under its own token, so an item ingested again is a second Memory.
    [upsert_memory] composes an id from its arguments, but every call ends
    in an exception before a point is sent: it stores nothing. *)
Theorem every_stored_point_has_a_fresh_token (env : Env) :
  (forall items1 items2 w w1 w2,
      (forall m n : nat, uuid_src env m = uuid_src env n -> m = n) ->
      Ingestor._store env items1 w = (Return tt, w1) ->
      Ingestor._store env items2 w1 = (Return tt, w2) ->
      exists tr,
        trace w2 = trace w ++ tr /\
        upsert_ids tr
          = map (uuid_src env) (seq (tick w + length items1) (length items1))
            ++ map (uuid_src env) (seq (tick w1 + length items2) (length items2)) /\
        NoDup (upsert_ids tr) /\
        (forall (i : nat) itm,
            items1 !! i = Some itm ->
            stored_payload w2 (uuid_src env (tick w + length items1 + i))
            = Some (Ingestor.make_payload itm)) /\
        (forall (j : nat) itm,
            items2 !! j = Some itm ->
            stored_payload w2 (uuid_src env (tick w1 + length items2 + j))
            = Some (Ingestor.make_payload itm)))
  /\
  (forall t cid rl ts extra w,
      exists e w',
        QdrantMemory.upsert_memory env t cid rl ts extra w = (Raise e, w') /\
        qdrant w' = qdrant w /\
        upsert_ids (drop (length (trace w)) (trace w')) = []).
Proof.
  split.
  - intros items1 items2 w w1 w2 Hinj H1 H2.
    pose proof H1 as H1'. pose proof H2 as H2'.
    apply _store_returns in H1' as (vs1 & c1 & Hl1 & Ht1 & Hk1 & _).
    apply _store_returns in H2' as (vs2 & c2 & Hl2 & Ht2 & _ & _).
    eexists. split; [rewrite Ht2, Ht1, <- app_assoc; reflexivity|].
    rewrite upsert_ids_app, !upsert_ids_store by assumption.
    split; [reflexivity|]. split.
    + rewrite <- map_app. apply NoDup_map_injective; [exact Hinj|].
      apply NoDup_seq_apart. lia.
    + split.
      * intros i itm Hi.
        rewrite (store_frame env items2 w1 w2 _ H2).
        -- exact (store_lookup env items1 w w1 i itm Hinj H1 Hi).
        -- intros Hin. apply list_elem_of_In, in_map_iff in Hin as (m & Hm & Hin).
           apply Hinj in Hm. apply in_seq in Hin. apply lookup_lt_Some in Hi. lia.
      * intros j itm Hj. exact (store_lookup env items2 w1 w2 j itm Hinj H2 Hj).
  - intros t cid rl ts extra w.
    destruct (upsert_memory_run env t cid rl ts extra w) as (e & w' & Hr & Hq & Htr).
    exists e, w'. split; [exact Hr|]. split; [exact Hq|].
    rewrite Htr, drop_app_length. reflexivity.
Qed.

(** Witness for C4: "hello" ingested twice through [_store]. *)
Lemma every_stored_point_has_a_fresh_token_witness :
  exists tr,
    trace (snd (Ingestor._store demo_env [item_hello]
                  (snd (Ingestor._store demo_env [item_hello] booted_world))))
      = trace booted_world ++ tr /\
    upsert_ids tr
      = map (uuid_src demo_env) (seq (tick booted_world + length [item_hello])
                                   (length [item_hello]))
        ++ map (uuid_src demo_env)
             (seq (tick (snd (Ingestor._store demo_env [item_hello] booted_world))
                   + length [item_hello]) (length [item_hello])) /\
    NoDup (upsert_ids tr) /\
    (forall (i : nat) itm,
        [item_hello] !! i = Some itm ->
        stored_payload (snd (Ingestor._store demo_env [item_hello]
                               (snd (Ingestor._store demo_env [item_hello] booted_world))))
          (uuid_src demo_env (tick booted_world + length [item_hello] + i))
        = Some (Ingestor.make_payload itm)) /\
    (forall (j : nat) itm,
        [item_hello] !! j = Some itm ->
        stored_payload (snd (Ingestor._store demo_env [item_hello]
                               (snd (Ingestor._store demo_env [item_hello] booted_world))))
          (uuid_src demo_env
             (tick (snd (Ingestor._store demo_env [item_hello] booted_world))
              + length [item_hello] + j))
        = Some (Ingestor.make_payload itm)).
Proof.
  apply (proj1 (every_stored_point_has_a_fresh_token demo_env)
           [item_hello] [item_hello] booted_world
           (snd (Ingestor._store demo_env [item_hello] booted_world))).
  - intros m n H. cbn in H. injection H as H. exact (pretty_nat_inj m n H).
  - vm_compute. reflexivity.
  - vm_compute. reflexivity.
Defined.

(** ** Schema bootstrap *)

Lemma existsb_eqb_decide (l : list string) :
  existsb (fun name => String.eqb name COLLECTION) l = bool_decide (COLLECTION ∈ l).
Proof.
  induction l as [|x l IH]; [reflexivity|]. cbn [existsb]. rewrite IH.
  destruct (String.eqb x COLLECTION) eqn:Hx.
  - apply String.eqb_eq in Hx. subst x. symmetry. apply bool_decide_eq_true. left.
  - apply String.eqb_neq in Hx. cbn.
    destruct (bool_decide (COLLECTION ∈ l)) eqn:Hl; symmetry.
    + apply bool_decide_eq_true. right. now apply bool_decide_eq_true in Hl.
    + apply bool_decide_eq_false. apply bool_decide_eq_false in Hl.
      intros Hin. apply elem_of_cons in Hin as [Heq|Hin]; [now apply Hx | now apply Hl].
Qed.

Lemma ingestor_ensure_shape env w :
  Ingestor._ensure_collection env w = ensure_with env Ingestor.VECTOR_SIZE w.
Proof. reflexivity. Qed.

Lemma memory_ensure_shape env w :
  QdrantMemory._ensure_collection env w = ensure_with env QdrantMemory.VECTOR_SIZE w.
Proof.
  unfold QdrantMemory._ensure_collection, ensure_with, bind.
  destruct (get_collections env w) as [[names|e] w1]; [|reflexivity].
  rewrite existsb_eqb_decide. reflexivity.
Qed.

Lemma get_collections_run env w :
  get_collections env w =
  (match qdrant_fault env (tick w) with
   | Some d => Raise (QdrantException d)
   | None => Return (elements (dom (qdrant w)))
   end,
   mkWorld (qdrant w) (trace w ++ [CGetCollections]) (S (tick w))).
Proof.
  unfold get_collections. unfold bind at 1. rewrite qdrant_call_run.
  destruct (qdrant_fault env (tick w)); reflexivity.
Qed.

Lemma recreate_collection_run env name vsize on_disk w :
  recreate_collection env name vsize on_disk w =
  match qdrant_fault env (tick w) with
  | Some d =>
      (Raise (QdrantException d),
       mkWorld (qdrant w) (trace w ++ [CRecreateCollection name vsize on_disk]) (S (tick w)))
  | None =>
      (Return tt,
       mkWorld (<[name := mkCollection vsize on_disk [] ∅]> (qdrant w))
               (trace w ++ [CRecreateCollection name vsize on_disk]) (S (tick w)))
  end.
Proof.
  unfold recreate_collection. unfold bind at 1. rewrite qdrant_call_run.
  destruct (qdrant_fault env (tick w)); reflexivity.
Qed.

Lemma create_payload_index_run env name field schema w :
  create_payload_index env name field schema w =
  match qdrant_fault env (tick w), qdrant w !! name with
  | Some d, _ =>
      (Raise (QdrantException d),
       mkWorld (qdrant w) (trace w ++ [CCreatePayloadIndex name field schema]) (S (tick w)))
  | None, None =>
      (Raise (QdrantException "collection not found"),
       mkWorld (qdrant w) (trace w ++ [CCreatePayloadIndex name field schema]) (S (tick w)))
  | None, Some c =>
      (Return tt,
       mkWorld (<[name := mkCollection (c_vector_size c) (c_on_disk_payload c)
                            (c_indexes c ++ [(field, schema)]) (c_points c)]> (qdrant w))
               (trace w ++ [CCreatePayloadIndex name field schema]) (S (tick w)))
  end.
Proof.
  unfold create_payload_index. unfold bind at 1. rewrite qdrant_call_run.
  destruct (qdrant_fault env (tick w)); [reflexivity|].
  unfold bind, get_store, put_store, raise. cbn.
  destruct (qdrant w !! name); reflexivity.
Qed.

Lemma collection_listed (q : gmap string Collection) :
  bool_decide (COLLECTION ∈ elements (dom q)) = true <-> is_Some (q !! COLLECTION).
Proof. rewrite bool_decide_eq_true, elem_of_elements, elem_of_dom. reflexivity. Qed.

(** On a store that has the collection the call only lists the collections. *)
Lemma ensure_present env vsize w :
  is_Some (qdrant w !! COLLECTION) ->
  ensure_with env vsize w =
  (match qdrant_fault env (tick w) with
   | Some d => Raise (QdrantException d)
   | None => Return tt
   end,
   mkWorld (qdrant w) (trace w ++ [CGetCollections]) (S (tick w))).
Proof.
  intros Hin. unfold ensure_with, bind. rewrite get_collections_run.
  destruct (qdrant_fault env (tick w)); [reflexivity|].
  apply collection_listed in Hin. rewrite Hin. reflexivity.
Qed.

(** On a store that lacks it, a call that returns made the four calls of
    the bootstrap and left the collection in place. *)
Lemma ensure_absent_returns env vsize w w1 :
  qdrant w !! COLLECTION = None ->
  ensure_with env vsize w = (Return tt, w1) ->
  trace w1 = trace w ++ [CGetCollections; CRecreateCollection COLLECTION vsize true;
                         CCreatePayloadIndex COLLECTION "conversation_id" "keyword";
                         CCreatePayloadIndex COLLECTION "ts" "integer"] /\
  qdrant w1 !! COLLECTION =
    Some (mkCollection vsize true [("conversation_id", "keyword"); ("ts", "integer")] ∅).
Proof.
  intros Habs H. unfold ensure_with in H. unfold bind at 1 in H.
  rewrite get_collections_run in H.
  destruct (qdrant_fault env (tick w)); [discriminate|].
  assert (Hl : bool_decide (COLLECTION ∈ elements (dom (qdrant w))) = false).
  { apply not_true_is_false. rewrite collection_listed, Habs. intros [? ?]. discriminate. }
  rewrite Hl in H. cbn [negb] in H. unfold bind at 1 in H.
  rewrite recreate_collection_run in H. cbn [tick qdrant trace] in H.
  destruct (qdrant_fault env (S (tick w))); [discriminate|].
  unfold bind at 1 in H. rewrite create_payload_index_run in H. cbn [tick qdrant trace] in H.
  destruct (qdrant_fault env (S (S (tick w)))); [discriminate|].
  rewrite lookup_insert_eq in H.
  rewrite create_payload_index_run in H. cbn [tick qdrant trace] in H.
  destruct (qdrant_fault env (S (S (S (tick w))))); [discriminate|].
  rewrite lookup_insert_eq in H. injection H as <-. cbn.
  rewrite lookup_insert_eq, <- !app_assoc. split; reflexivity.
Qed.

(** Two calls in a row from a store that lacks the collection, the first
    of which returns: one creation, then none and no mutation. *)
Lemma ensure_twice env vsize w w1 :
  qdrant w !! COLLECTION = None ->
  ensure_with env vsize w = (Return tt, w1) ->
  exists tr1 tr2,
    trace w1 = trace w ++ tr1 /\
    trace (snd (ensure_with env vsize w1)) = trace w1 ++ tr2 /\
    creations tr1 = 1%nat /\ creations tr2 = 0%nat /\
    forallb (fun c => negb (is_mutation c)) tr2 = true /\
    qdrant (snd (ensure_with env vsize w1)) = qdrant w1.
Proof.
  intros Habs H. apply ensure_absent_returns in H as [Htr Hq]; [|exact Habs].
  rewrite (ensure_present env vsize w1) by (rewrite Hq; eauto).
  do 2 eexists. split; [exact Htr|]. cbn [snd trace qdrant].
  split; [reflexivity|]. repeat split; reflexivity.
Qed.

(** From a store that lacks the collection, with a store that answers the
    four calls, the bootstrap returns. *)
Lemma ensure_absent_runs env vsize w :
  qdrant w !! COLLECTION = None ->
  (forall i : nat, (i < 4)%nat -> qdrant_fault env (tick w + i) = None) ->
  exists w1, ensure_with env vsize w = (Return tt, w1).
Proof.
  intros Habs Hup.
  pose proof (Hup 0%nat ltac:(lia)) as H0. pose proof (Hup 1%nat ltac:(lia)) as H1.
  pose proof (Hup 2%nat ltac:(lia)) as H2. pose proof (Hup 3%nat ltac:(lia)) as H3.
  rewrite Nat.add_0_r in H0.
  replace (tick w + 1)%nat with (S (tick w)) in H1 by lia.
  replace (tick w + 2)%nat with (S (S (tick w))) in H2 by lia.
  replace (tick w + 3)%nat with (S (S (S (tick w)))) in H3 by lia.
  unfold ensure_with. unfold bind at 1. rewrite get_collections_run, H0.
  assert (Hl : bool_decide (COLLECTION ∈ elements (dom (qdrant w))) = false).
  { apply not_true_is_false. rewrite collection_listed, Habs. intros [? ?]. discriminate. }
  rewrite Hl. cbn [negb]. unfold bind at 1.
  rewrite recreate_collection_run. cbn [tick qdrant trace]. rewrite H1.
  unfold bind at 1. rewrite create_payload_index_run. cbn [tick qdrant trace]. rewrite H2.
  rewrite lookup_insert_eq.
  rewrite create_payload_index_run. cbn [tick qdrant trace]. rewrite H3.
  rewrite lookup_insert_eq. eexists. reflexivity.
Qed.

(** Two calls in a row from a store that lacks the collection and answers
    the four calls of the first. *)
Lemma ensure_twice_runs env vsize w :
  qdrant w !! COLLECTION = None ->
  (forall i : nat, (i < 4)%nat -> qdrant_fault env (tick w + i) = None) ->
  exists w1 tr1 tr2,
    ensure_with env vsize w = (Return tt, w1) /\
    trace w1 = trace w ++ tr1 /\
    trace (snd (ensure_with env vsize w1)) = trace w1 ++ tr2 /\
    creations tr1 = 1%nat /\ creations tr2 = 0%nat /\
    forallb (fun c => negb (is_mutation c)) tr2 = true /\
    qdrant (snd (ensure_with env vsize w1)) = qdrant w1.
Proof.
  intros Habs Hup. destruct (ensure_absent_runs env vsize w Habs Hup) as [w1 H].
  destruct (ensure_twice env vsize w w1 Habs H) as (tr1 & tr2 & Hrest).
  exists w1, tr1, tr2. split; [exact H | exact Hrest].
Qed.

(** C7. When the collection exists, [_ensure_collection] lists the
    collections and does nothing else: the store, with whatever size and
    indexes the collection has, is left as it is. From a store without the
    collection and with a store that answers, the first call returns after
    exactly one creation, and the call that follows makes none and no other
    mutation. Both variants, the ingestor's and the wrapper class's. *)
Theorem ensure_collection_idempotent (env : Env) (w : World) :
  (is_Some (qdrant w !! COLLECTION) ->
   (qdrant (snd (Ingestor._ensure_collection env w)) = qdrant w /\
    trace (snd (Ingestor._ensure_collection env w)) = trace w ++ [CGetCollections]) /\
   (qdrant (snd (QdrantMemory._ensure_collection env w)) = qdrant w /\
    trace (snd (QdrantMemory._ensure_collection env w)) = trace w ++ [CGetCollections]))
  /\
  (qdrant w !! COLLECTION = None ->
   (forall i : nat, (i < 4)%nat -> qdrant_fault env (tick w + i) = None) ->
   (exists w1 tr1 tr2,
      Ingestor._ensure_collection env w = (Return tt, w1) /\
      trace w1 = trace w ++ tr1 /\
      trace (snd (Ingestor._ensure_collection env w1)) = trace w1 ++ tr2 /\
      creations tr1 = 1%nat /\ creations tr2 = 0%nat /\
      forallb (fun c => negb (is_mutation c)) tr2 = true /\
      qdrant (snd (Ingestor._ensure_collection env w1)) = qdrant w1) /\
   (exists w1 tr1 tr2,
      QdrantMemory._ensure_collection env w = (Return tt, w1) /\
      trace w1 = trace w ++ tr1 /\
      trace (snd (QdrantMemory._ensure_collection env w1)) = trace w1 ++ tr2 /\
      creations tr1 = 1%nat /\ creations tr2 = 0%nat /\
      forallb (fun c => negb (is_mutation c)) tr2 = true /\
      qdrant (snd (QdrantMemory._ensure_collection env w1)) = qdrant w1)).
Proof.
  split.
  - intros Hin. rewrite ingestor_ensure_shape, memory_ensure_shape.
    rewrite !ensure_present by exact Hin. cbn. repeat split; reflexivity.
  - intros Habs Hup. split.
    + destruct (ensure_twice_runs env Ingestor.VECTOR_SIZE w Habs Hup)
        as (w1 & tr1 & tr2 & H & Hrest).
      exists w1, tr1, tr2. rewrite !ingestor_ensure_shape. split; [exact H | exact Hrest].
    + destruct (ensure_twice_runs env QdrantMemory.VECTOR_SIZE w Habs Hup)
        as (w1 & tr1 & tr2 & H & Hrest).
      exists w1, tr1, tr2. rewrite !memory_ensure_shape. split; [exact H | exact Hrest].
Qed.

(** Witness for C7: each variant boots a fresh deployment and is called
    again; and each variant is called on the booted deployment. *)
Lemma ensure_collection_idempotent_witness :
  ((qdrant (snd (Ingestor._ensure_collection demo_env booted_world)) = qdrant booted_world /\
    trace (snd (Ingestor._ensure_collection demo_env booted_world))
      = trace booted_world ++ [CGetCollections]) /\
   (qdrant (snd (QdrantMemory._ensure_collection demo_env booted_world)) = qdrant booted_world /\
    trace (snd (QdrantMemory._ensure_collection demo_env booted_world))
      = trace booted_world ++ [CGetCollections]))
  /\
  ((exists w1 tr1 tr2,
      Ingestor._ensure_collection demo_env fresh_world = (Return tt, w1) /\
      trace w1 = trace fresh_world ++ tr1 /\
      trace (snd (Ingestor._ensure_collection demo_env w1)) = trace w1 ++ tr2 /\
      creations tr1 = 1%nat /\ creations tr2 = 0%nat /\
      forallb (fun c => negb (is_mutation c)) tr2 = true /\
      qdrant (snd (Ingestor._ensure_collection demo_env w1)) = qdrant w1) /\
   (exists w1 tr1 tr2,
      QdrantMemory._ensure_collection demo_env fresh_world = (Return tt, w1) /\
      trace w1 = trace fresh_world ++ tr1 /\
      trace (snd (QdrantMemory._ensure_collection demo_env w1)) = trace w1 ++ tr2 /\
      creations tr1 = 1%nat /\ creations tr2 = 0%nat /\
      forallb (fun c => negb (is_mutation c)) tr2 = true /\
      qdrant (snd (QdrantMemory._ensure_collection demo_env w1)) = qdrant w1)).
Proof.
  split.
  - apply (proj1 (ensure_collection_idempotent demo_env booted_world)).
    vm_compute. eexists. reflexivity.
  - apply (proj2 (ensure_collection_idempotent demo_env fresh_world) eq_refl).
    intros i _. reflexivity.
Defined.

(** ** Retrieval *)

Lemma client_search_run env name q cid k w :
  client_search env name q cid k w =
  (match qdrant_fault env (tick w) with
   | Some d => Raise (QdrantException d)
   | None => Return (qdrant_hits env (tick w))
   end,
   mkWorld (qdrant w) (trace w ++ [CSearch name q cid k]) (S (tick w))).
Proof.
  unfold client_search. unfold bind at 1. rewrite qdrant_call_run.
  destruct (qdrant_fault env (tick w)); reflexivity.
Qed.

(** The comprehension of [top_k] over hits that all have a text. *)
Lemma project_all hits : forall w,
  forallb (has_key "text") hits = true ->
  exists res, mapM QdrantSearch.project hits w = (Return res, w) /\
              Forall2 projects_to hits res.
Proof.
  induction hits as [|h hits IH]; intros w Hall.
  - exists []. split; [reflexivity | constructor].
  - cbn [forallb] in Hall. apply andb_true_iff in Hall as [Hh Hall].
    destruct (IH w Hall) as (res & Hres & HF).
    unfold has_key in Hh. destruct (h_payload h !! "text") as [t|] eqn:Ht; [|discriminate].
    eexists. split.
    + cbn [mapM]. unfold bind at 1. unfold QdrantSearch.project at 1, getitem, bind at 1.
      rewrite Ht. unfold ret at 1 2. cbn. unfold bind. rewrite Hres. reflexivity.
    + constructor; [|exact HF]. unfold projects_to, dict_get. cbn.
      repeat split; try reflexivity. exact Ht.
Qed.

(** The same comprehension when some hit has no text. *)
Lemma project_some_without_text hits : forall w,
  forallb (has_key "text") hits = false ->
  mapM QdrantSearch.project hits w = (Raise (KeyError "text"), w).
Proof.
  induction hits as [|h hits IH]; intros w Hex; [discriminate|].
  cbn [forallb] in Hex. cbn [mapM]. unfold bind at 1.
  unfold QdrantSearch.project at 1, getitem, bind at 1. unfold has_key in Hex.
  destruct (h_payload h !! "text") as [t|] eqn:Ht.
  - cbn in Hex. unfold ret at 1 2. cbn. unfold bind. rewrite (IH w Hex). reflexivity.
  - reflexivity.
Qed.

Lemma top_k_run env vector cid k w :
  QdrantSearch.top_k env vector cid k w =
  match qdrant_fault env (tick w) with
  | Some d =>
      (Raise (QdrantException d),
       mkWorld (qdrant w) (trace w ++ [CSearch COLLECTION vector cid k]) (S (tick w)))
  | None =>
      mapM QdrantSearch.project (qdrant_hits env (tick w))
        (mkWorld (qdrant w) (trace w ++ [CSearch COLLECTION vector cid k]) (S (tick w)))
  end.
Proof.
  unfold QdrantSearch.top_k, bind. rewrite client_search_run.
  destruct (qdrant_fault env (tick w)); reflexivity.
Qed.

Lemma context_run env req w :
  ContextApp.context env req w =
  match QdrantSearch.top_k env (ContextApp.query_vector req) (ContextApp.conversation_id req)
          (ContextApp.k req) w with
  | (Return hits, w') =>
      (Return (ContextApp.mkResp hits (clock env (tick w'))),
       mkWorld (qdrant w') (trace w') (S (tick w')))
  | (Raise e, w') => (Raise (HTTPException 500 (exc_str e)), w')
  end.
Proof.
  unfold ContextApp.context, try_except. unfold bind at 1.
  destruct (QdrantSearch.top_k env _ _ _ w) as [[hits|e] w']; reflexivity.
Qed.

Lemma project_world hits : forall w, snd (mapM QdrantSearch.project hits w) = w.
Proof.
  induction hits as [|h hits IH]; intros w; [reflexivity|].
  cbn [mapM]. unfold bind at 1. unfold QdrantSearch.project at 1, getitem, bind at 1.
  destruct (h_payload h !! "text") as [t|]; [|reflexivity].
  unfold ret at 1 2. cbn. unfold bind. specialize (IH w).
  destruct (mapM QdrantSearch.project hits w) as [[res|e] w']; cbn in *; exact IH.
Qed.

(** C6, as the code has it. When the store answers a search with hits
    that all carry a text, [top_k] returns one element per hit, in the
    order of the hits, each holding the hit's text and score, its role or
    "unknown" when the payload has no "role", and its "ts" or None when
    the payload has no "ts". *)
Theorem top_k_projects_hits_in_order (env : Env) (vector : list float) (cid : string)
    (k : Z) (w : World) :
  qdrant_fault env (tick w) = None ->
  forallb (has_key "text") (qdrant_hits env (tick w)) = true ->
  exists res w',
    QdrantSearch.top_k env vector cid k w = (Return res, w') /\
    Forall2 projects_to (qdrant_hits env (tick w)) res.
Proof.
  intros Hup Hall. rewrite top_k_run, Hup.
  destruct (project_all _ (mkWorld (qdrant w) (trace w ++ [CSearch COLLECTION vector cid k])
                             (S (tick w))) Hall) as (res & Hres & HF).
  exists res. eexists. split; [exact Hres | exact HF].
Qed.

(** Witness for C6: a full hit followed by one that has only a text. *)
Lemma top_k_projects_hits_in_order_witness :
  exists res w',
    QdrantSearch.top_k (env_hits [hit_hello; hit_bare]) demo_query "c1" 6 booted_world
      = (Return res, w') /\
    Forall2 projects_to (qdrant_hits (env_hits [hit_hello; hit_bare]) (tick booted_world)) res.
Proof.
  apply (top_k_projects_hits_in_order (env_hits [hit_hello; hit_bare]) demo_query "c1" 6
           booted_world).
  - reflexivity.
  - vm_compute. reflexivity.
Defined.

(** Counterexample to C6 as stated: the store returns two hits, the
    second without text, and [top_k] returns no list at all. *)
Lemma top_k_raises_on_hit_without_text :
  qdrant_fault (env_hits [hit_hello; hit_no_text]) (tick booted_world) = None /\
  fst (QdrantSearch.top_k (env_hits [hit_hello; hit_no_text]) demo_query "c1" 6 booted_world)
    = Raise (KeyError "text").
Proof. vm_compute. split; reflexivity. Qed.

(** The comprehension of [QdrantMemory.search] raises as soon as a hit
    lacks one of the three keys it indexes. *)
Lemma memory_project_some_without_key hits : forall w,
  forallb (fun h => has_key "text" h && has_key "role" h && has_key "ts" h) hits = false ->
  exists key, mapM QdrantMemory.project hits w = (Raise (KeyError key), w) /\
              In key ["text"; "role"; "ts"].
Proof.
  induction hits as [|h hits IH]; intros w Hex; [discriminate|].
  cbn [forallb] in Hex. cbn [mapM]. unfold bind at 1.
  unfold QdrantMemory.project at 1, getitem, bind, ret, raise. unfold has_key in Hex.
  destruct (h_payload h !! "text") as [t|]; [|exists "text"; split; [reflexivity | cbn; tauto]].
  destruct (h_payload h !! "role") as [r|]; [|exists "role"; split; [reflexivity | cbn; tauto]].
  destruct (h_payload h !! "ts") as [ts|]; [|exists "ts"; split; [reflexivity | cbn; tauto]].
  cbn in Hex. destruct (IH w Hex) as (key & Hk & Hin).
  exists key. unfold bind in Hk. rewrite Hk. split; [reflexivity | exact Hin].
Qed.

(** C10. When the store answers a search and some hit has no "text",
    [top_k] raises KeyError on "text" and returns nothing, and POST /context
    turns it into a 500; role and ts have defaults, text has none. In
    [QdrantMemory.search] the comprehension indexes "text", "role" and "ts"
    unguarded, so over hits of which one lacks any of the three it raises
    KeyError on one of these keys; and the call as a whole raises on every
    input, its [filter] keyword being refused before the search, so it
    never returns a projected result either. *)
Theorem hit_without_text_raises (env : Env) (vector : list float) (cid : string)
    (k : Z) (w : World) :
  qdrant_fault env (tick w) = None ->
  (Exists (fun h => h_payload h !! "text" = None) (qdrant_hits env (tick w)) ->
   fst (QdrantSearch.top_k env vector cid k w) = Raise (KeyError "text") /\
   fst (ContextApp.context env (ContextApp.mkReq cid vector k) w)
     = Raise (HTTPException 500 "'text'"))
  /\
  (forall hits : list ScoredPoint,
     Exists (fun h => h_payload h !! "text" = None \/ h_payload h !! "role" = None \/
                      h_payload h !! "ts" = None) hits ->
     exists key, mapM QdrantMemory.project hits w = (Raise (KeyError key), w) /\
                 In key ["text"; "role"; "ts"])
  /\
  (exists d, QdrantMemory.search env vector cid k w = (Raise (AssertionError d), w)).
Proof.
  intros Hup. split; [|split].
  - intros Hex.
    assert (Hf : forallb (has_key "text") (qdrant_hits env (tick w)) = false).
    { apply not_true_is_false. intros Hall. rewrite forallb_forall in Hall.
      apply Exists_exists in Hex as (h & Hin & Hh).
      specialize (Hall h (proj1 (list_elem_of_In _ _) Hin)). unfold has_key in Hall.
      rewrite Hh in Hall. discriminate. }
    assert (Ht : fst (QdrantSearch.top_k env vector cid k w) = Raise (KeyError "text")).
    { rewrite top_k_run, Hup, project_some_without_text by exact Hf. reflexivity. }
    split; [exact Ht|]. rewrite context_run. cbn [ContextApp.query_vector
      ContextApp.conversation_id ContextApp.k].
    destruct (QdrantSearch.top_k env vector cid k w) as [[res|e] w']; cbn in Ht;
      [discriminate|]. injection Ht as ->. reflexivity.
  - intros hits Hex.
    assert (Hf : forallb (fun h => has_key "text" h && has_key "role" h && has_key "ts" h)
                   hits = false).
    { apply not_true_is_false. intros Hall. rewrite forallb_forall in Hall.
      apply Exists_exists in Hex as (h & Hin & Hh).
      specialize (Hall h (proj1 (list_elem_of_In _ _) Hin)). unfold has_key in Hall.
      destruct Hh as [Hh|[Hh|Hh]]; rewrite Hh in Hall;
        repeat (destruct (h_payload h !! _)); discriminate. }
    exact (memory_project_some_without_key hits w Hf).
  - eexists. reflexivity.
Qed.

(** Witness for C10: the second of two hits has no text; the first of two
    hits has no role and no ts. *)
Lemma hit_without_text_raises_witness :
  (fst (QdrantSearch.top_k (env_hits [hit_hello; hit_no_text]) demo_query "c1" 6 booted_world)
     = Raise (KeyError "text") /\
   fst (ContextApp.context (env_hits [hit_hello; hit_no_text])
          (ContextApp.mkReq "c1" demo_query 6) booted_world)
     = Raise (HTTPException 500 "'text'"))
  /\
  (exists key,
     mapM QdrantMemory.project [hit_bare; hit_hello] booted_world
       = (Raise (KeyError key), booted_world) /\
     In key ["text"; "role"; "ts"])
  /\
  (exists d,
     QdrantMemory.search (env_hits [hit_bare; hit_hello]) demo_query "c1" 6 booted_world
       = (Raise (AssertionError d), booted_world)).
Proof.
  split; [|split].
  - apply (proj1 (hit_without_text_raises (env_hits [hit_hello; hit_no_text]) demo_query "c1" 6
                    booted_world eq_refl)).
    apply Exists_cons_tl, Exists_cons_hd. vm_compute. reflexivity.
  - apply (proj1 (proj2 (hit_without_text_raises (env_hits [hit_bare; hit_hello]) demo_query
                           "c1" 6 booted_world eq_refl))).
    apply Exists_cons_hd. right. left. vm_compute. reflexivity.
  - apply (proj2 (proj2 (hit_without_text_raises (env_hits [hit_bare; hit_hello]) demo_query
                           "c1" 6 booted_world eq_refl))).
Defined.

(** C8, as the code has it. The number of hits is never compared with k:
    whenever the store answers a search with hits that all carry a text,
    however few and also none, [top_k] returns one element per hit and
    POST /context returns them. A search that the store refuses makes
    [top_k] raise the store's exception, which POST /context reports as a
    500. [top_k] raises in these two cases only: the store raised, or a hit
    of the answer has no text. *)
Theorem fewer_hits_is_not_an_error (env : Env) (vector : list float) (cid : string)
    (k : Z) (w : World) :
  (qdrant_fault env (tick w) = None ->
   forallb (has_key "text") (qdrant_hits env (tick w)) = true ->
   exists res w' w'',
     QdrantSearch.top_k env vector cid k w = (Return res, w') /\
     length res = length (qdrant_hits env (tick w)) /\
     ContextApp.context env (ContextApp.mkReq cid vector k) w
       = (Return (ContextApp.mkResp res (clock env (S (tick w)))), w''))
  /\
  (forall d, qdrant_fault env (tick w) = Some d ->
     fst (QdrantSearch.top_k env vector cid k w) = Raise (QdrantException d) /\
     fst (ContextApp.context env (ContextApp.mkReq cid vector k) w)
       = Raise (HTTPException 500 d))
  /\
  (forall e, fst (QdrantSearch.top_k env vector cid k w) = Raise e ->
     (exists d, qdrant_fault env (tick w) = Some d /\ e = QdrantException d) \/
     (qdrant_fault env (tick w) = None /\ e = KeyError "text" /\
      forallb (has_key "text") (qdrant_hits env (tick w)) = false)).
Proof.
  split; [|split].
  - intros Hup Hall.
    destruct (project_all _ (mkWorld (qdrant w) (trace w ++ [CSearch COLLECTION vector cid k])
                               (S (tick w))) Hall) as (res & Hres & HF).
    exists res. do 2 eexists. rewrite context_run. cbn [ContextApp.query_vector
      ContextApp.conversation_id ContextApp.k]. rewrite top_k_run, Hup, Hres.
    split; [reflexivity|]. split; [|reflexivity].
    symmetry. exact (Forall2_length _ _ _ HF).
  - intros d Hd. rewrite context_run. cbn [ContextApp.query_vector
      ContextApp.conversation_id ContextApp.k]. rewrite top_k_run, Hd. split; reflexivity.
  - intros e He. rewrite top_k_run in He.
    destruct (qdrant_fault env (tick w)) as [d|] eqn:Hd.
    + left. exists d. cbn in He. injection He as <-. split; reflexivity.
    + right. split; [reflexivity|].
      destruct (forallb (has_key "text") (qdrant_hits env (tick w))) eqn:Hall.
      * destruct (project_all _ (mkWorld (qdrant w)
                    (trace w ++ [CSearch COLLECTION vector cid k]) (S (tick w))) Hall)
          as (res & Hres & _).
        rewrite Hres in He. discriminate.
      * rewrite project_some_without_text in He by exact Hall.
        injection He as <-. split; reflexivity.
Qed.

(** Witness for C8: k is 6 and the store finds nothing, then one hit; and
    a store that is down. *)
Lemma fewer_hits_is_not_an_error_witness :
  (exists res w' w'',
     QdrantSearch.top_k demo_env demo_query "c1" 6 booted_world = (Return res, w') /\
     length res = length (qdrant_hits demo_env (tick booted_world)) /\
     ContextApp.context demo_env (ContextApp.mkReq "c1" demo_query 6) booted_world
       = (Return (ContextApp.mkResp res (clock demo_env (S (tick booted_world)))), w''))
  /\
  (exists res w' w'',
     QdrantSearch.top_k (env_hits [hit_bare]) demo_query "c1" 6 booted_world = (Return res, w') /\
     length res = length (qdrant_hits (env_hits [hit_bare]) (tick booted_world)) /\
     ContextApp.context (env_hits [hit_bare]) (ContextApp.mkReq "c1" demo_query 6) booted_world
       = (Return (ContextApp.mkResp res (clock (env_hits [hit_bare]) (S (tick booted_world)))),
          w''))
  /\
  (fst (QdrantSearch.top_k env_down demo_query "c1" 6 booted_world)
     = Raise (QdrantException "connection refused") /\
   fst (ContextApp.context env_down (ContextApp.mkReq "c1" demo_query 6) booted_world)
     = Raise (HTTPException 500 "connection refused")).
Proof.
  split; [|split].
  - apply (proj1 (fewer_hits_is_not_an_error demo_env demo_query "c1" 6 booted_world));
      reflexivity.
  - apply (proj1 (fewer_hits_is_not_an_error (env_hits [hit_bare]) demo_query "c1" 6
                    booted_world)); [reflexivity | vm_compute; reflexivity].
  - apply (proj1 (proj2 (fewer_hits_is_not_an_error env_down demo_query "c1" 6 booted_world))).
    reflexivity.
Defined.

(** Counterexample to C8 as stated: a valid request with k = 6, a store
    that answers the search with a single hit, and yet the call fails, on
    the payload of that hit and not on the store. *)
Lemma failure_without_store_failure :
  ContextApp.ContextReq_validate
    (ContextApp.mkReqIn (Some "c1") (Some demo_query) (Some 6)) booted_world
    = (Return (ContextApp.mkReq "c1" demo_query 6), booted_world) /\
  qdrant_fault (env_hits [hit_no_text]) (tick booted_world) = None /\
  length (qdrant_hits (env_hits [hit_no_text]) (tick booted_world)) = 1%nat /\
  fst (ContextApp.post_context (env_hits [hit_no_text])
         (ContextApp.mkReqIn (Some "c1") (Some demo_query) (Some 6)) booted_world)
    = Raise (HTTPException 500 "'text'").
Proof. vm_compute. repeat split; reflexivity. Qed.

(** ** Bounds on k *)

Lemma check_k_spec (kv : Z) :
  ContextApp.check_k (Some kv) = if bool_decide (1 <= kv <= 30) then [] else ["k"].
Proof.
  unfold ContextApp.check_k. case_bool_decide as Hk.
  - replace (0 <? kv) with true by (symmetry; apply Z.ltb_lt; lia).
    replace (kv <=? 30) with true by (symmetry; apply Z.leb_le; lia). reflexivity.
  - destruct (0 <? kv) eqn:H0; destruct (kv <=? 30) eqn:H30; try reflexivity.
    apply Z.ltb_lt in H0. apply Z.leb_le in H30. lia.
Qed.

(** C5, as the code has it. The bound on k is the request model's. A
    request to POST /context whose k is outside 1..30 (0 and 31 among them)
    fails with a [ValidationError] that names k, before anything is sent; a
    request whose k is inside never gets a [ValidationError] that names k,
    and when its other two fields validate it reaches the handler with that
    k. The function [top_k] has no bound of its own: whatever k it is given,
    it sends the search with that k as the limit and never raises a
    [ValidationError]. *)
Theorem k_is_bounded_1_30 (env : Env) (r : ContextApp.ContextReqIn) (kv : Z) (w : World) :
  ContextApp.in_k r = Some kv ->
  (~ (1 <= kv <= 30) ->
   exists fs, ContextApp.post_context env r w = (Raise (ValidationError fs), w) /\ In "k" fs)
  /\
  (1 <= kv <= 30 ->
   (forall fs w', ContextApp.post_context env r w = (Raise (ValidationError fs), w') ->
                  ~ In "k" fs) /\
   (forall cid v, ContextApp.in_conversation_id r = Some cid ->
                  ContextApp.in_query_vector r = Some v -> (3 <= length v)%nat ->
                  ContextApp.ContextReq_validate r w = (Return (ContextApp.mkReq cid v kv), w) /\
                  ContextApp.post_context env r w
                    = ContextApp.context env (ContextApp.mkReq cid v kv) w))
  /\
  (forall vector cid,
     trace (snd (QdrantSearch.top_k env vector cid kv w))
       = trace w ++ [CSearch COLLECTION vector cid kv] /\
     forall fs, fst (QdrantSearch.top_k env vector cid kv w) <> Raise (ValidationError fs)).
Proof.
  intros Hk.
  assert (Htop : forall vector cid,
            trace (snd (QdrantSearch.top_k env vector cid kv w))
              = trace w ++ [CSearch COLLECTION vector cid kv] /\
            forall fs, fst (QdrantSearch.top_k env vector cid kv w) <> Raise (ValidationError fs)).
  { intros vector cid. rewrite top_k_run.
    destruct (qdrant_fault env (tick w)) as [d|]; [split; [reflexivity | discriminate]|].
    match goal with |- context [mapM QdrantSearch.project ?hs ?w0] =>
      pose proof (project_world hs w0) as Hw;
      destruct (forallb (has_key "text") hs) eqn:Hall;
      [ destruct (project_all hs w0 Hall) as (res & Hres & _); rewrite Hres in *
      | rewrite (project_some_without_text hs w0 Hall) in * ] end;
      cbn in *; (split; [reflexivity | discriminate]). }
  cut ((~ 1 <= kv <= 30 ->
        exists fs, ContextApp.post_context env r w = (Raise (ValidationError fs), w) /\ In "k" fs)
       /\
       (1 <= kv <= 30 ->
        (forall fs w', ContextApp.post_context env r w = (Raise (ValidationError fs), w') ->
                       ~ In "k" fs) /\
        (forall cid v, ContextApp.in_conversation_id r = Some cid ->
                       ContextApp.in_query_vector r = Some v -> (3 <= length v)%nat ->
                       ContextApp.ContextReq_validate r w
                         = (Return (ContextApp.mkReq cid v kv), w) /\
                       ContextApp.post_context env r w
                         = ContextApp.context env (ContextApp.mkReq cid v kv) w))).
  { intros [Hout Hin]. split; [exact Hout|]. split; [exact Hin | exact Htop]. }
  assert (Hv : ContextApp.ContextReq_validate r w =
               (match ContextApp.check_conversation_id (ContextApp.in_conversation_id r) ++
                      ContextApp.check_query_vector (ContextApp.in_query_vector r) ++
                      (if bool_decide (1 <= kv <= 30) then [] else ["k"]) with
                | [] => Return (ContextApp.mkReq (default "" (ContextApp.in_conversation_id r))
                                  (default [] (ContextApp.in_query_vector r)) kv)
                | f :: fs => Raise (ValidationError (f :: fs))
                end, w)).
  { unfold ContextApp.ContextReq_validate. rewrite Hk, check_k_spec.
    destruct (_ ++ _ ++ _); reflexivity. }
  split.
  - intros Hout. rewrite bool_decide_eq_false_2 in Hv by exact Hout.
    unfold ContextApp.post_context, bind. rewrite Hv.
    set (pre := ContextApp.check_conversation_id _ ++ ContextApp.check_query_vector _ ++ _).
    assert (Hin : In "k" pre) by (subst pre; rewrite !in_app_iff; right; right; left; reflexivity).
    exists pre. split; [|exact Hin]. destruct pre; [destruct Hin | reflexivity].
  - intros Hin. rewrite bool_decide_eq_true_2, app_nil_r in Hv by exact Hin. split.
    + intros fs w' H. unfold ContextApp.post_context, bind in H. rewrite Hv in H.
      destruct (ContextApp.check_conversation_id _ ++ ContextApp.check_query_vector _)
        as [|f fs'] eqn:Hpre.
      * rewrite context_run in H.
        destruct (QdrantSearch.top_k env _ _ _ w) as [[hits|e] w1]; discriminate.
      * injection H as <- _. rewrite <- Hpre, in_app_iff.
        unfold ContextApp.check_conversation_id, ContextApp.check_query_vector.
        destruct (ContextApp.in_conversation_id r), (ContextApp.in_query_vector r) as [v|];
          try destruct (3 <=? length v)%nat; cbn; intuition discriminate.
    + intros cid v Hc Hvec Hlen.
      assert (Hv' : ContextApp.ContextReq_validate r w = (Return (ContextApp.mkReq cid v kv), w)).
      { rewrite Hv, Hc, Hvec.
        unfold ContextApp.check_conversation_id, ContextApp.check_query_vector.
        rewrite (proj2 (Nat.leb_le 3 (length v)) Hlen). reflexivity. }
      split; [exact Hv'|]. unfold ContextApp.post_context, bind. rewrite Hv'. reflexivity.
Qed.

(** Witness for C5: k = 0, k = 31 and k = 30. *)
Lemma k_is_bounded_1_30_witness :
  (exists fs,
     ContextApp.post_context demo_env
       (ContextApp.mkReqIn (Some "c1") (Some demo_query) (Some 0)) booted_world
     = (Raise (ValidationError fs), booted_world) /\ In "k" fs)
  /\
  (exists fs,
     ContextApp.post_context demo_env
       (ContextApp.mkReqIn (Some "c1") (Some demo_query) (Some 31)) booted_world
     = (Raise (ValidationError fs), booted_world) /\ In "k" fs)
  /\
  (ContextApp.ContextReq_validate
     (ContextApp.mkReqIn (Some "c1") (Some demo_query) (Some 30)) booted_world
   = (Return (ContextApp.mkReq "c1" demo_query 30), booted_world) /\
   ContextApp.post_context demo_env
     (ContextApp.mkReqIn (Some "c1") (Some demo_query) (Some 30)) booted_world
   = ContextApp.context demo_env (ContextApp.mkReq "c1" demo_query 30) booted_world)
  /\
  (trace (snd (QdrantSearch.top_k demo_env demo_query "c1" 31 booted_world))
     = trace booted_world ++ [CSearch COLLECTION demo_query "c1" 31] /\
   forall fs,
     fst (QdrantSearch.top_k demo_env demo_query "c1" 31 booted_world)
     <> Raise (ValidationError fs)).
Proof.
  split; [|split; [|split]].
  - apply (proj1 (k_is_bounded_1_30 demo_env
                    (ContextApp.mkReqIn (Some "c1") (Some demo_query) (Some 0)) 0
                    booted_world eq_refl)). lia.
  - apply (proj1 (k_is_bounded_1_30 demo_env
                    (ContextApp.mkReqIn (Some "c1") (Some demo_query) (Some 31)) 31
                    booted_world eq_refl)). lia.
  - assert (H30 : 1 <= 30 <= 30) by lia.
    apply (proj2 (proj1 (proj2 (k_is_bounded_1_30 demo_env
                    (ContextApp.mkReqIn (Some "c1") (Some demo_query) (Some 30)) 30
                    booted_world eq_refl)) H30) "c1" demo_query eq_refl eq_refl).
    cbn. lia.
  - apply (proj2 (proj2 (k_is_bounded_1_30 demo_env
                    (ContextApp.mkReqIn (Some "c1") (Some demo_query) (Some 31)) 31
                    booted_world eq_refl)) demo_query "c1").
Defined.

(** Counterexample to C5 as stated: called with k = 0 and with k = 31,
    [top_k] sends the search with that limit and returns what the store
    found; it does not fail. *)
Lemma top_k_accepts_any_k :
  QdrantSearch.top_k demo_env demo_query "c1" 0 booted_world
    = (Return [],
       mkWorld (qdrant booted_world)
         (trace booted_world ++ [CSearch COLLECTION demo_query "c1" 0])
         (S (tick booted_world))) /\
  QdrantSearch.top_k demo_env demo_query "c1" 31 booted_world
    = (Return [],
       mkWorld (qdrant booted_world)
         (trace booted_world ++ [CSearch COLLECTION demo_query "c1" 31])
         (S (tick booted_world))).
Proof. split; reflexivity. Qed.

(** * Further properties of the code *)

(** ** Outcomes of the handlers *)

(** X1. [_store] returns or raises an [HTTPException] with status 502,
    never anything else, and the two routes that call it answer
    accordingly: POST /memory/batch returns status ok with [inserted] equal
    to the number of items exactly when [_store] returned. *)
Theorem store_failures_are_502 (env : Env) (items : list Ingestor.Item) (w : World) :
  (forall e, fst (Ingestor._store env items w) = Raise e -> exists d, e = HTTPException 502 d)
  /\
  ((exists w',
      Ingestor._store env items w = (Return tt, w') /\
      Ingestor.ingest_batch env items w
      = (Return (<["inserted" := VInt (Z.of_nat (length items))]> {[ "status" := VStr "ok" ]}),
         w'))
   \/
   (exists d w',
      Ingestor._store env items w = (Raise (HTTPException 502 d), w') /\
      Ingestor.ingest_batch env items w = (Raise (HTTPException 502 d), w'))).
Proof.
  assert (H : (exists w', Ingestor._store env items w = (Return tt, w')) \/
              (exists d w', Ingestor._store env items w = (Raise (HTTPException 502 d), w'))).
  { destruct (_store_run env items w) as [(e & w1 & _ & Hs) | (vs & w1 & _ & _ & Hs)].
    - right. eauto.
    - cbn zeta in Hs. rewrite Hs.
      destruct (fst (upsert env COLLECTION _ _)) as [[]|e]; [left | right]; eauto. }
  split.
  - intros e He. destruct H as [(w' & Hs) | (d & w' & Hs)]; rewrite Hs in He; cbn in He.
    + discriminate.
    + injection He as <-. eauto.
  - unfold Ingestor.ingest_batch, bind.
    destruct H as [(w' & Hs) | (d & w' & Hs)]; rewrite Hs; [left | right]; eauto.
Qed.

(** X2. POST /context makes exactly one outbound call, the search with the
    vector, conversation id and k of the request, never changes the store,
    and fails only with an [HTTPException] of status 500. *)
Theorem context_searches_once_and_never_writes (env : Env) (req : ContextApp.ContextReq)
    (w : World) :
  qdrant (snd (ContextApp.context env req w)) = qdrant w /\
  trace (snd (ContextApp.context env req w))
    = trace w ++ [CSearch COLLECTION (ContextApp.query_vector req)
                    (ContextApp.conversation_id req) (ContextApp.k req)] /\
  (forall e, fst (ContextApp.context env req w) = Raise e -> exists d, e = HTTPException 500 d).
Proof.
  rewrite context_run, top_k_run.
  destruct (qdrant_fault env (tick w)) as [d|].
  - cbn. repeat split; try reflexivity. intros e He. injection He as <-. eauto.
  - match goal with |- context [mapM QdrantSearch.project ?hs ?w0] =>
      pose proof (project_world hs w0) as Hw;
      destruct (mapM QdrantSearch.project hs w0) as [[res|e0] w1] end;
      cbn in Hw; subst w1; cbn; repeat split; try reflexivity.
    + intros e He. discriminate.
    + intros e He. injection He as <-. eauto.
Qed.

(** X3. An empty batch posts nothing and still sends one upsert, of no
    points. The call returns exactly when the store accepts that upsert
    (it does not raise and the collection exists), and then the store is
    as before. *)
Theorem empty_batch_upserts_nothing (env : Env) (w : World) :
  trace (snd (Ingestor._store env [] w)) = trace w ++ [CUpsert COLLECTION []] /\
  (fst (Ingestor._store env [] w) = Return tt <->
   qdrant_fault env (tick w) = None /\ is_Some (qdrant w !! COLLECTION)) /\
  (fst (Ingestor._store env [] w) = Return tt -> qdrant (snd (Ingestor._store env [] w)) = qdrant w).
Proof.
  rewrite _store_unfold. cbn [map Ingestor._embed mapM ret zip_with points_from length].
  rewrite Nat.add_0_r, upsert_run. cbn [qdrant trace tick].
  destruct (qdrant_fault env (tick w)) as [d|]; [|destruct (qdrant w !! COLLECTION) as [c|] eqn:Hc];
    cbn; (split; [reflexivity|]); split.
  - split; [discriminate | intros [? _]; discriminate].
  - discriminate.
  - split; [eauto | reflexivity].
  - intros _. apply insert_id. rewrite Hc. destruct c; reflexivity.
  - split; [discriminate | intros [_ [? ?]]; discriminate].
  - discriminate.
Qed.

(** ** Embeddings and points of a batch *)

Lemma embed_returns_vectors_in_order_aux (env : Env) (texts : list string) (w : World)
    (vs : list PyVal) (w' : World) :
  Ingestor._embed env texts w = (Return vs, w') ->
  length vs = length texts /\
  forall (i : nat) (t : string),
    texts !! i = Some t ->
    exists st body v,
      embed_head env (tick w + i) t = Response st (Some body) /\
      body !! "vector" = Some v /\ vs !! i = Some v.
Proof.
  revert w vs w'. induction texts as [|t0 texts IH]; intros w vs w' H.
  - cbn in H. injection H as <- _. split; [reflexivity|]. intros i t Hi. discriminate.
  - unfold Ingestor._embed in H. cbn [mapM] in H. unfold bind at 1 in H.
    rewrite embed_one_run in H.
    destruct (embed_head env (tick w) t0) as [d|st [body|]] eqn:Hr; try discriminate.
    destruct (body !! "vector") as [v|] eqn:Hv; [|discriminate].
    unfold bind at 1 in H.
    match type of H with context [mapM _ texts ?w0] =>
      destruct (mapM (Ingestor.embed_one env) texts w0) as [[vs1|e] w2] eqn:Hrest end;
      [|discriminate].
    cbn in H. injection H as <- <-.
    apply IH in Hrest as [Hlen Hall]. cbn [tick] in Hall.
    split; [cbn; now rewrite Hlen|].
    intros [|i] t Hi; cbn in Hi.
    + injection Hi as <-. rewrite Nat.add_0_r. exists st, body, v. repeat split; assumption.
    + destruct (Hall i t Hi) as (st' & body' & v' & Hr' & Hv' & Hvs).
      exists st', body', v'. replace (tick w + S i)%nat with (S (tick w) + i)%nat by lia.
      repeat split; assumption.
Qed.

(** X4. When [_embed] returns, it returns one vector per text, in the order
    of the texts: the i-th vector is the "vector" entry of the body that
    the service sent in reply to the i-th text. *)
Theorem embed_returns_vectors_in_order (env : Env) (texts : list string) (w : World)
    (vs : list PyVal) (w' : World) :
  Ingestor._embed env texts w = (Return vs, w') ->
  length vs = length texts /\
  forall (i : nat) (t : string),
    texts !! i = Some t ->
    exists st body v,
      embed_head env (tick w + i) t = Response st (Some body) /\
      body !! "vector" = Some v /\ vs !! i = Some v.
Proof. apply embed_returns_vectors_in_order_aux. Qed.

(** Witness for X4: two texts on the demo service. *)
Lemma embed_returns_vectors_in_order_witness :
  length [demo_vector; demo_vector] = length ["hello"; "world"] /\
  forall (i : nat) (t : string),
    ["hello"; "world"] !! i = Some t ->
    exists st body v,
      embed_head demo_env (tick booted_world + i) t = Response st (Some body) /\
      body !! "vector" = Some v /\ [demo_vector; demo_vector] !! i = Some v.
Proof.
  apply (embed_returns_vectors_in_order demo_env ["hello"; "world"] booted_world
           [demo_vector; demo_vector]
           (mkWorld (qdrant booted_world)
              (trace booted_world ++ [CPost EMBED_URL "hello"; CPost EMBED_URL "world"]) 6)).
  vm_compute. reflexivity.
Defined.

(** X5. When [_store] returns, the point it sent for the i-th item carries
    the token drawn for it, the payload built from that item, and the vector
    that the embedding service returned for that item's own text: items and
    vectors are paired position by position. *)
Theorem store_pairs_items_with_their_vectors (env : Env) (items : list Ingestor.Item)
    (w w' : World) :
  Ingestor._store env items w = (Return tt, w') ->
  exists pts,
    last (trace w') = Some (CUpsert COLLECTION pts) /\
    length pts = length items /\
    forall (i : nat) (itm : Ingestor.Item),
      items !! i = Some itm ->
      exists st body v,
        embed_head env (tick w + i) (Ingestor.text itm) = Response st (Some body) /\
        body !! "vector" = Some v /\
        pts !! i = Some (mkPoint (uuid_src env (tick w + length items + i)) v
                           (Ingestor.make_payload itm)).
Proof.
  intros H.
  destruct (_store_run env items w) as [(e & w1 & _ & Hs) | (vs & w1 & He & Hlen & Hs)].
  { rewrite Hs in H. discriminate. }
  cbn zeta in Hs. rewrite Hs in H. clear Hs.
  pose proof (_embed_run env _ _ _ _ He) as (_ & n & _ & _ & Htk & Hret).
  destruct (Hret vs eq_refl) as [-> _]. rewrite length_map in Htk.
  pose proof (embed_returns_vectors_in_order_aux env _ _ _ _ He) as [_ Hall].
  injection H as _ <-. eexists. split.
  - rewrite upsert_trace. apply last_snoc.
  - split; [rewrite points_from_length, length_zip_with, Hlen; apply Nat.min_id|].
    intros i itm Hi.
    destruct (Hall i (Ingestor.text itm)) as (st & body & v & Hr & Hv & Hvs).
    { rewrite list_lookup_fmap, Hi. reflexivity. }
    exists st, body, v. split; [exact Hr|]. split; [exact Hv|].
    rewrite (points_from_lookup env _ _ i (itm, v)).
    + rewrite Htk. reflexivity.
    + rewrite lookup_zip_with, Hi, Hvs. reflexivity.
Qed.

(** Witness for X5: a batch of two items on the booted deployment. *)
Lemma store_pairs_items_with_their_vectors_witness :
  exists pts,
    last (trace (snd (Ingestor._store demo_env [item_hello; item_world] booted_world)))
      = Some (CUpsert COLLECTION pts) /\
    length pts = length [item_hello; item_world] /\
    forall (i : nat) (itm : Ingestor.Item),
      [item_hello; item_world] !! i = Some itm ->
      exists st body v,
        embed_head demo_env (tick booted_world + i) (Ingestor.text itm)
          = Response st (Some body) /\
        body !! "vector" = Some v /\
        pts !! i = Some (mkPoint (uuid_src demo_env
                                    (tick booted_world + length [item_hello; item_world] + i))
                           v (Ingestor.make_payload itm)).
Proof.
  apply (store_pairs_items_with_their_vectors demo_env [item_hello; item_world] booted_world).
  vm_compute. reflexivity.
Defined.

(** ** Writing and finding again *)

(** X6. Write, then look up. While the tokens drawn do not repeat, after a
    [_store] that returned, the collection holds under the token of the
    i-th item exactly the payload built from that item, for every item of
    the batch, also when items of the batch are equal to each other. *)
Theorem stored_payload_is_found_under_its_token (env : Env) (items : list Ingestor.Item)
    (w w' : World) :
  (forall m n : nat, uuid_src env m = uuid_src env n -> m = n) ->
  Ingestor._store env items w = (Return tt, w') ->
  forall (i : nat) (itm : Ingestor.Item),
    items !! i = Some itm ->
    stored_payload w' (uuid_src env (tick w + length items + i))
    = Some (Ingestor.make_payload itm).
Proof.
  intros Hinj H i itm Hi.
  apply _store_returns in H as (vs & c & Hlen & _ & _ & Hc & Hq).
  unfold stored_payload. rewrite Hq, lookup_insert_eq. cbn [c_points].
  destruct (vs !! i) as [v|] eqn:Hv.
  2:{ apply lookup_ge_None in Hv. apply lookup_lt_Some in Hi. lia. }
  assert (Hp : points_from env (tick w + length items) (zip items vs) !! i
               = Some (mkPoint (uuid_src env (tick w + length items + i)) v
                         (Ingestor.make_payload itm))).
  { apply (points_from_lookup env _ _ i (itm, v)). rewrite lookup_zip_with, Hi, Hv. reflexivity. }
  assert (Hnd : NoDup (map p_id (points_from env (tick w + length items) (zip items vs)))).
  { rewrite points_from_ids. apply NoDup_map_injective; [exact Hinj | apply NoDup_seq]. }
  pose proof (add_points_lookup _ (c_points c) i _ Hnd Hp) as Hl.
  cbn [p_id p_vector p_payload] in Hl. rewrite Hl. reflexivity.
Qed.

(** Witness for X6: the same item twice in one batch. *)
Lemma stored_payload_is_found_under_its_token_witness :
  stored_payload (snd (Ingestor._store demo_env [item_hello; item_hello] booted_world))
    (uuid_src demo_env (tick booted_world + length [item_hello; item_hello] + 1))
  = Some (Ingestor.make_payload item_hello).
Proof.
  apply (stored_payload_is_found_under_its_token demo_env [item_hello; item_hello] booted_world
           (snd (Ingestor._store demo_env [item_hello; item_hello] booted_world))).
  - intros m n H. cbn in H. injection H as H. exact (pretty_nat_inj m n H).
  - vm_compute. reflexivity.
  - reflexivity.
Defined.

(** ** The two embedding clients *)

(** X7. Only the wrapper class looks at the status code. For a reply whose
    body has a "vector", the ingestor's [_embed] takes the vector whatever
    the status; [QdrantMemory.embed] takes it unless the status is in
    400..599, where it raises. *)
Theorem only_the_wrapper_checks_the_status (env : Env) (t : string) (w : World)
    (st : Z) (body : gmap string PyVal) (v : PyVal) :
  embed_head env (tick w) t = Response st (Some body) ->
  body !! "vector" = Some v ->
  fst (Ingestor._embed env [t] w) = Return [v] /\
  (400 <= st < 600 ->
   fst (QdrantMemory.embed env t w) = Raise (RequestException ("HTTPError " +:+ pretty st))) /\
  (~ (400 <= st < 600) -> fst (QdrantMemory.embed env t w) = Return v).
Proof.
  intros Hr Hv. split; [|split].
  - unfold Ingestor._embed. cbn [mapM]. unfold bind at 1. rewrite embed_one_run, Hr, Hv.
    reflexivity.
  - intros Hst. unfold QdrantMemory.embed, requests_post, raise_for_status, bind, log,
      next_tick, ret, raise. cbn. rewrite Hr. cbn.
    replace (400 <=? st) with true by (symmetry; apply Z.leb_le; lia).
    replace (st <? 600) with true by (symmetry; apply Z.ltb_lt; lia). reflexivity.
  - intros Hst. unfold QdrantMemory.embed, requests_post, raise_for_status, resp_json, getitem,
      bind, log, next_tick, ret, raise. cbn. rewrite Hr. cbn.
    destruct (400 <=? st) eqn:H1; destruct (st <? 600) eqn:H2; cbn; rewrite ?Hv; try reflexivity.
    apply Z.leb_le in H1. apply Z.ltb_lt in H2. lia.
Qed.

(** Witness for X7: a service that answers 500 with a vector in the body. *)
Lemma only_the_wrapper_checks_the_status_witness :
  fst (Ingestor._embed env_status_500 ["hello"] booted_world) = Return [demo_vector] /\
  fst (QdrantMemory.embed env_status_500 "hello" booted_world)
    = Raise (RequestException ("HTTPError " +:+ pretty 500)).
Proof.
  destruct (only_the_wrapper_checks_the_status env_status_500 "hello" booted_world 500
              {[ "vector" := demo_vector ]} demo_vector eq_refl eq_refl) as (H1 & H2 & _).
  split; [exact H1 | apply H2; lia].
Defined.

Lemma memory_embed_run_fails env t w :
  memory_embed_fails env (tick w) t = true ->
  exists e, fst (QdrantMemory.embed env t w) = Raise e /\
            ((exists d, e = RequestException d) \/ e = KeyError "vector").
Proof.
  unfold memory_embed_fails, QdrantMemory.embed, requests_post, raise_for_status, resp_json,
    getitem, bind, log, next_tick, ret, raise. cbn.
  destruct (embed_head env (tick w) t) as [d|st [body|]]; cbn; intros H.
  - eauto.
  - destruct ((400 <=? st) && (st <? 600)); cbn in *; [eauto|].
    destruct (body !! "vector"); [discriminate | eauto].
  - destruct ((400 <=? st) && (st <? 600)); cbn; eauto.
Qed.

(** X8. When the embedding fails in [upsert_memory] (no response, an error
    status, a body that does not decode or has no "vector"), the call
    raises that exception as it is, a requests exception or KeyError on
    "vector", the only outbound call made is the POST, and the store is
    unchanged: nothing is written without an embedding. *)
Theorem upsert_memory_writes_nothing_without_embedding (env : Env) (t cid rl : string)
    (ts : option Z) (extra : option (gmap string PyVal)) (w : World) :
  memory_embed_fails env (if truthy_int ts then tick w else S (tick w)) t = true ->
  exists e w',
    QdrantMemory.upsert_memory env t cid rl ts extra w = (Raise e, w') /\
    ((exists d, e = RequestException d) \/ e = KeyError "vector") /\
    trace w' = trace w ++ [CPost QdrantMemory.EMBED_HEAD_URL t] /\
    qdrant w' = qdrant w.
Proof.
  intros Hf. unfold QdrantMemory.upsert_memory. unfold bind at 1. rewrite or_now_run.
  set (w0 := if truthy_int ts then w
             else mkWorld (qdrant w) (trace w) (S (tick w))).
  assert (Hw0 : tick w0 = (if truthy_int ts then tick w else S (tick w)) /\
                trace w0 = trace w /\ qdrant w0 = qdrant w).
  { subst w0. destruct (truthy_int ts); repeat split; reflexivity. }
  destruct Hw0 as (Htk & Htr & Hq). rewrite <- Htk in Hf.
  destruct (memory_embed_run_fails env t w0 Hf) as (e & He & Hkind).
  destruct (memory_embed_run env t w0) as [o Ho]. rewrite Ho in He. cbn in He. subst o.
  exists e. eexists. split.
  - destruct (truthy_int ts); subst w0; unfold bind; rewrite Ho; reflexivity.
  - split; [exact Hkind|]. cbn. rewrite Htr, Hq. split; reflexivity.
Qed.

(** Witness for X8: the service that answers 500. *)
Lemma upsert_memory_writes_nothing_without_embedding_witness :
  exists e w',
    QdrantMemory.upsert_memory env_status_500 "hello" "c1" "user" None None booted_world
      = (Raise e, w') /\
    ((exists d, e = RequestException d) \/ e = KeyError "vector") /\
    trace w' = trace booted_world ++ [CPost QdrantMemory.EMBED_HEAD_URL "hello"] /\
    qdrant w' = qdrant booted_world.
Proof.
  apply (upsert_memory_writes_nothing_without_embedding env_status_500 "hello" "c1" "user"
           None None booted_world).
  vm_compute. reflexivity.
Defined.

(** ** What the writers store, the readers can project *)

(** X9. Whatever the extra payload, a payload built by either write path
    has the keys text, role, conversation_id and ts: the update can replace
    their values, never remove them. So the projection of [top_k], and the
    stricter one of [QdrantMemory.search], never raise on a hit whose
    payload one of the writers built. *)
Theorem written_payloads_can_be_projected :
  (forall (itm : Ingestor.Item) (k : string),
      In k ["text"; "role"; "conversation_id"; "ts"] ->
      is_Some (Ingestor.make_payload itm !! k))
  /\
  (forall t cid rl ts (extra : option (gmap string PyVal)) (k : string),
      In k ["text"; "role"; "conversation_id"; "ts"] ->
      is_Some (QdrantMemory.make_payload t cid rl ts extra !! k))
  /\
  (forall (itm : Ingestor.Item) t cid rl ts extra (score : float) (w : World),
      (exists c, QdrantSearch.project (mkHit (Ingestor.make_payload itm) score) w = (Return c, w)) /\
      (exists c, QdrantSearch.project (mkHit (QdrantMemory.make_payload t cid rl ts extra) score) w
                 = (Return c, w)) /\
      (exists f, QdrantMemory.project (mkHit (Ingestor.make_payload itm) score) w = (Return f, w)) /\
      (exists f, QdrantMemory.project (mkHit (QdrantMemory.make_payload t cid rl ts extra) score) w
                 = (Return f, w))).
Proof.
  assert (H1 : forall (itm : Ingestor.Item) (k : string),
             In k ["text"; "role"; "conversation_id"; "ts"] ->
             is_Some (Ingestor.make_payload itm !! k)).
  { intros itm k Hk. rewrite ingestor_payload_lookup. unfold base_entry.
    destruct (Ingestor.extra_payload itm) as [e|]; [destruct (e !! k); [eauto|]|];
      cbn in Hk; destruct Hk as [<-|[<-|[<-|[<-|[]]]]]; cbn; eauto. }
  assert (H2 : forall t cid rl ts (extra : option (gmap string PyVal)) (k : string),
             In k ["text"; "role"; "conversation_id"; "ts"] ->
             is_Some (QdrantMemory.make_payload t cid rl ts extra !! k)).
  { intros t cid rl ts extra k Hk. rewrite memory_payload_lookup. unfold base_entry.
    destruct extra as [e|]; [destruct (e !! k); [eauto|]|];
      cbn in Hk; destruct Hk as [<-|[<-|[<-|[<-|[]]]]]; cbn; eauto. }
  split; [exact H1|]. split; [exact H2|].
  intros itm t cid rl ts extra score w.
  unfold QdrantSearch.project, QdrantMemory.project, getitem, bind, ret. cbn [h_payload h_score].
  destruct (H1 itm "text") as [v1 ->]; [cbn; tauto|].
  destruct (H1 itm "role") as [v2 ->]; [cbn; tauto|].
  destruct (H1 itm "ts") as [v3 ->]; [cbn; tauto|].
  destruct (H2 t cid rl ts extra "text") as [u1 ->]; [cbn; tauto|].
  destruct (H2 t cid rl ts extra "role") as [u2 ->]; [cbn; tauto|].
  destruct (H2 t cid rl ts extra "ts") as [u3 ->]; [cbn; tauto|].
  repeat split; eexists; reflexivity.
Qed.

(** ** Validation of a retrieval request *)

(** X10. [ContextReq] validates exactly the bodies that have a
    conversation_id (empty or not), a query_vector of at least three
    numbers, and a k that is either absent or within 1..30. The request
    that comes out has the fields of the body, with k = 6 when the body has
    none, and validation sends nothing and reads nothing. *)
Theorem ContextReq_accepts_exactly (r : ContextApp.ContextReqIn) (w : World) :
  ((exists req, ContextApp.ContextReq_validate r w = (Return req, w)) <->
   (is_Some (ContextApp.in_conversation_id r) /\
    (exists v, ContextApp.in_query_vector r = Some v /\ (3 <= length v)%nat) /\
    (forall kv, ContextApp.in_k r = Some kv -> 1 <= kv <= 30)))
  /\
  (forall req w',
     ContextApp.ContextReq_validate r w = (Return req, w') ->
     w' = w /\
     ContextApp.in_conversation_id r = Some (ContextApp.conversation_id req) /\
     ContextApp.in_query_vector r = Some (ContextApp.query_vector req) /\
     ContextApp.k req = default 6 (ContextApp.in_k r))
  /\
  (forall e w', ContextApp.ContextReq_validate r w = (Raise e, w') ->
     w' = w /\ exists f fs, e = ValidationError (f :: fs)).
Proof.
  unfold ContextApp.ContextReq_validate, ContextApp.check_conversation_id,
    ContextApp.check_query_vector.
  destruct (ContextApp.in_conversation_id r) as [cid|];
    destruct (ContextApp.in_query_vector r) as [v|];
    try destruct (Nat.leb_spec 3 (length v));
    destruct (ContextApp.in_k r) as [kv|]; try rewrite check_k_spec;
    try case_bool_decide; cbn;
    (split; [split|split]).
  all: try (intros [req Hreq]; discriminate).
  all: try (intros req w' Hreq; discriminate).
  all: try (intros e w' He; discriminate).
  all: try (intros e w' He; injection He as <- <-; split; [reflexivity | eauto]).
  all: try (intros req w' Hreq; injection Hreq as <- <-; repeat split; reflexivity).
  all: try (intros _; eexists; reflexivity).
  all: try (intros _; split; [eauto|]; split; [eauto|]; intros kv' Hk; first
              [discriminate | injection Hk as <-; assumption]).
  all: try (intros (Hc & (v' & Hv & Hlen) & Hk); exfalso;
            first [ destruct Hc; discriminate
                  | discriminate
                  | injection Hv as <-; lia
                  | specialize (Hk _ eq_refl); tauto ]).
Qed.

(** ** More on the bootstrap *)

(** X11. A bootstrap that is interrupted after the creation is never
    completed. If, from a store without the collection, the store refuses
    the first index creation, the call raises and leaves the collection in
    place without any index; every later [_ensure_collection], of either
    variant and whatever the store then answers, finds the name and changes
    nothing, so the indexes are never created. *)
Theorem interrupted_bootstrap_is_never_completed (env env' : Env) (w : World) (d : string) :
  qdrant w !! COLLECTION = None ->
  qdrant_fault env (tick w) = None ->
  qdrant_fault env (S (tick w)) = None ->
  qdrant_fault env (S (S (tick w))) = Some d ->
  let w1 := snd (Ingestor._ensure_collection env w) in
  fst (Ingestor._ensure_collection env w) = Raise (QdrantException d) /\
  qdrant w1 !! COLLECTION = Some (mkCollection Ingestor.VECTOR_SIZE true [] ∅) /\
  qdrant (snd (Ingestor._ensure_collection env' w1)) = qdrant w1 /\
  qdrant (snd (QdrantMemory._ensure_collection env' w1)) = qdrant w1.
Proof.
  intros Habs H0 H1 H2 w1.
  assert (Hrun : Ingestor._ensure_collection env w =
                 (Raise (QdrantException d),
                  mkWorld (<[COLLECTION := mkCollection Ingestor.VECTOR_SIZE true [] ∅]> (qdrant w))
                    (trace w ++ [CGetCollections]
                       ++ [CRecreateCollection COLLECTION Ingestor.VECTOR_SIZE true]
                       ++ [CCreatePayloadIndex COLLECTION "conversation_id" "keyword"])
                    (S (S (S (tick w)))))).
  { rewrite ingestor_ensure_shape. unfold ensure_with. unfold bind at 1.
    rewrite get_collections_run, H0.
    assert (Hl : bool_decide (COLLECTION ∈ elements (dom (qdrant w))) = false).
    { apply not_true_is_false. rewrite collection_listed, Habs. intros [? ?]. discriminate. }
    rewrite Hl. cbn [negb]. unfold bind at 1.
    rewrite recreate_collection_run. cbn [tick qdrant trace]. rewrite H1.
    unfold bind at 1. rewrite create_payload_index_run. cbn [tick qdrant trace]. rewrite H2.
    rewrite <- !app_assoc. reflexivity. }
  subst w1. rewrite Hrun. cbn [fst snd qdrant].
  split; [reflexivity|]. split; [apply lookup_insert_eq|].
  rewrite ingestor_ensure_shape, memory_ensure_shape.
  rewrite !ensure_present by (cbn [qdrant]; rewrite lookup_insert_eq; eauto).
  split; reflexivity.
Qed.

(** Witness for X11: the store times out on the third call of the boot. *)
Lemma interrupted_bootstrap_is_never_completed_witness :
  fst (Ingestor._ensure_collection env_fault_at_2 fresh_world)
    = Raise (QdrantException "timed out") /\
  qdrant (snd (Ingestor._ensure_collection env_fault_at_2 fresh_world)) !! COLLECTION
    = Some (mkCollection Ingestor.VECTOR_SIZE true [] ∅) /\
  qdrant (snd (Ingestor._ensure_collection demo_env
                 (snd (Ingestor._ensure_collection env_fault_at_2 fresh_world))))
    = qdrant (snd (Ingestor._ensure_collection env_fault_at_2 fresh_world)) /\
  qdrant (snd (QdrantMemory._ensure_collection demo_env
                 (snd (Ingestor._ensure_collection env_fault_at_2 fresh_world))))
    = qdrant (snd (Ingestor._ensure_collection env_fault_at_2 fresh_world)).
Proof.
  apply (interrupted_bootstrap_is_never_completed env_fault_at_2 demo_env fresh_world
           "timed out"); reflexivity.
Defined.

(** X12. The service that boots first fixes the vector size. From a store
    without the collection and with a store that answers, the bootstrap of
    the ingestor returns and leaves an empty collection of size 384 with
    the indexes on conversation_id (keyword) and ts (integer), and the
    wrapper class, whose size is 768, then leaves it at 384; and the other
    way round, the wrapper class creates it with 768 and the ingestor
    leaves it at 768. *)
Theorem first_bootstrap_fixes_the_vector_size (env env' : Env) (w : World) :
  qdrant w !! COLLECTION = None ->
  (forall i : nat, (i < 4)%nat -> qdrant_fault env (tick w + i) = None) ->
  (exists w1,
     Ingestor._ensure_collection env w = (Return tt, w1) /\
     qdrant w1 !! COLLECTION
       = Some (mkCollection 384 true [("conversation_id", "keyword"); ("ts", "integer")] ∅) /\
     qdrant (snd (QdrantMemory._ensure_collection env' w1)) !! COLLECTION
       = Some (mkCollection 384 true [("conversation_id", "keyword"); ("ts", "integer")] ∅))
  /\
  (exists w1,
     QdrantMemory._ensure_collection env w = (Return tt, w1) /\
     qdrant w1 !! COLLECTION
       = Some (mkCollection 768 true [("conversation_id", "keyword"); ("ts", "integer")] ∅) /\
     qdrant (snd (Ingestor._ensure_collection env' w1)) !! COLLECTION
       = Some (mkCollection 768 true [("conversation_id", "keyword"); ("ts", "integer")] ∅)).
Proof.
  intros Habs Hup. split.
  - destruct (ensure_absent_runs env Ingestor.VECTOR_SIZE w Habs Hup) as [w1 H].
    exists w1. rewrite ingestor_ensure_shape. split; [exact H|].
    apply ensure_absent_returns in H as [_ Hq]; [|exact Habs].
    split; [exact Hq|]. rewrite memory_ensure_shape, ensure_present by (rewrite Hq; eauto).
    exact Hq.
  - destruct (ensure_absent_runs env QdrantMemory.VECTOR_SIZE w Habs Hup) as [w1 H].
    exists w1. rewrite memory_ensure_shape. split; [exact H|].
    apply ensure_absent_returns in H as [_ Hq]; [|exact Habs].
    split; [exact Hq|]. rewrite ingestor_ensure_shape, ensure_present by (rewrite Hq; eauto).
    exact Hq.
Qed.

(** Witness for X12: a fresh deployment, booted by either service first. *)
Lemma first_bootstrap_fixes_the_vector_size_witness :
  (exists w1,
     Ingestor._ensure_collection demo_env fresh_world = (Return tt, w1) /\
     qdrant w1 !! COLLECTION
       = Some (mkCollection 384 true [("conversation_id", "keyword"); ("ts", "integer")] ∅) /\
     qdrant (snd (QdrantMemory._ensure_collection demo_env w1)) !! COLLECTION
       = Some (mkCollection 384 true [("conversation_id", "keyword"); ("ts", "integer")] ∅))
  /\
  (exists w1,
     QdrantMemory._ensure_collection demo_env fresh_world = (Return tt, w1) /\
     qdrant w1 !! COLLECTION
       = Some (mkCollection 768 true [("conversation_id", "keyword"); ("ts", "integer")] ∅) /\
     qdrant (snd (Ingestor._ensure_collection demo_env w1)) !! COLLECTION
       = Some (mkCollection 768 true [("conversation_id", "keyword"); ("ts", "integer")] ∅)).
Proof.
  apply (first_bootstrap_fixes_the_vector_size demo_env demo_env fresh_world eq_refl).
  intros i _. reflexivity.
Defined.

(** ** Collisions of the composed point id *)

Lemma string_app_assoc (a b c : string) : (a +:+ b) +:+ c = a +:+ b +:+ c.
Proof.
  induction a as [|x a IH]; [reflexivity|].
  change (String x ((a +:+ b) +:+ c) = String x (a +:+ b +:+ c)). now rewrite IH.
Qed.

Lemma string_length_app (a b : string) :
  String.length (a +:+ b) = (String.length a + String.length b)%nat.
Proof.
  induction a as [|x a IH]; [reflexivity|].
  change (S (String.length (a +:+ b)) = S (String.length a + String.length b)).
  now rewrite IH.
Qed.

Lemma string_app_inj_r (s : string) : forall a b : string, a +:+ s = b +:+ s -> a = b.
Proof.
  induction a as [|x a IH]; intros [|y b] H.
  - reflexivity.
  - apply (f_equal String.length) in H. rewrite !string_length_app in H. cbn in H. lia.
  - apply (f_equal String.length) in H. rewrite !string_length_app in H. cbn in H. lia.
  - change (String x (a +:+ s) = String y (b +:+ s)) in H. injection H as -> H.
    f_equal. exact (IH b H).
Qed.

(** The id determines the timestamp once the other three parts are fixed. *)
Lemma point_id_inj_ts env cid rl t (a b : Z) :
  QdrantMemory.point_id env cid a rl t = QdrantMemory.point_id env cid b rl t -> a = b.
Proof.
  unfold QdrantMemory.point_id. intros H.
  apply (String.app_inj cid) in H. apply (String.app_inj "-") in H.
  apply string_app_inj_r in H. exact (pretty_Z_inj a b H).
Qed.

(** X13. The id that [upsert_memory] composes does not tell memories
    apart. Two texts with the same hash get the same id under the same
    conversation, ts and role; and because the parts are joined with "-",
    conversation "c-5" at ts 7 gets the id of conversation "c" at ts 5 with
    role "7-<role>". With the other three parts fixed, the id does determine
    the ts. *)
Theorem composed_ids_collide (env : Env) :
  (forall cid ts rl t1 t2,
      py_hash env t1 = py_hash env t2 ->
      QdrantMemory.point_id env cid ts rl t1 = QdrantMemory.point_id env cid ts rl t2)
  /\
  (forall cid ts1 ts2 rl t,
      QdrantMemory.point_id env (cid +:+ "-" +:+ pretty ts1) ts2 rl t
      = QdrantMemory.point_id env cid ts1 (pretty ts2 +:+ "-" +:+ rl) t)
  /\
  (forall cid rl t (a b : Z),
      QdrantMemory.point_id env cid a rl t = QdrantMemory.point_id env cid b rl t -> a = b).
Proof.
  split; [|split].
  - intros cid ts rl t1 t2 Hh. unfold QdrantMemory.point_id. rewrite Hh. reflexivity.
  - intros cid ts1 ts2 rl t. unfold QdrantMemory.point_id.
    rewrite !string_app_assoc. reflexivity.
  - intros cid rl t a b. apply point_id_inj_ts.
Qed.

(** Witness for X13: "hello" and "world" have the same hash on the demo
    outside. *)
Lemma composed_ids_collide_witness :
  QdrantMemory.point_id demo_env "c1" 1700000100 "user" "hello"
  = QdrantMemory.point_id demo_env "c1" 1700000100 "user" "world".
Proof.
  apply (proj1 (composed_ids_collide demo_env)). reflexivity.
Defined.

(** ** Validation of a batch *)

Lemma validate_all_run env (rs : list Ingestor.ItemIn) : forall w,
  trace (snd (mapM (Ingestor.Item_validate env) rs w)) = trace w /\
  qdrant (snd (mapM (Ingestor.Item_validate env) rs w)) = qdrant w /\
  ((exists r, r ∈ rs /\ (Ingestor.in_text r = None \/ Ingestor.in_conversation_id r = None)) ->
   exists f fs, fst (mapM (Ingestor.Item_validate env) rs w) = Raise (ValidationError (f :: fs))).
Proof.
  induction rs as [|r rs IH]; intros w.
  - cbn. repeat split; try reflexivity. intros (r & Hin & _). inversion Hin.
  - assert (Hstep : mapM (Ingestor.Item_validate env) (r :: rs) w =
                    match Ingestor.Item_validate env r w with
                    | (Return a, w') =>
                        match mapM (Ingestor.Item_validate env) rs w' with
                        | (Return l, w'') => (Return (a :: l), w'')
                        | (Raise e, w'') => (Raise e, w'')
                        end
                    | (Raise e, w') => (Raise e, w')
                    end) by reflexivity.
    rewrite Hstep, Item_validate_run. clear Hstep.
    set (w1 := mkWorld (qdrant w) (trace w) _).
    destruct (Ingestor.in_text r) as [t|] eqn:Ht;
      [destruct (Ingestor.in_conversation_id r) as [c|] eqn:Hc|].
    + destruct (IH w1) as (Htr & Hq & Hbad).
      assert (Hbad' : (exists r', r' ∈ r :: rs /\
                         (Ingestor.in_text r' = None \/ Ingestor.in_conversation_id r' = None)) ->
                      exists r', r' ∈ rs /\
                         (Ingestor.in_text r' = None \/ Ingestor.in_conversation_id r' = None)).
      { intros (r' & Hin & Hr'). apply elem_of_cons in Hin as [->|Hin]; [|eauto].
        destruct Hr' as [Hr'|Hr']; congruence. }
      subst w1.
      destruct (mapM (Ingestor.Item_validate env) rs _) as [[items|e] w2]; cbn in *;
        (split; [exact Htr|]); (split; [exact Hq|]); intros Hex.
      * destruct (Hbad (Hbad' Hex)) as (f & fs & Hf). discriminate.
      * exact (Hbad (Hbad' Hex)).
    + cbn. repeat split; try reflexivity. intros _. eauto.
    + cbn. repeat split; try reflexivity. intros _.
      destruct (Ingestor.in_conversation_id r); cbn; eauto.
Qed.

(** X14. A batch is validated as a whole before anything is sent: if one
    body of POST /memory/batch lacks text or conversation_id, the request
    fails with [ValidationError], no embedding is requested and nothing is
    written, also for the valid bodies that come before it. *)
Theorem batch_with_invalid_body_sends_nothing (env : Env) (rs : list Ingestor.ItemIn)
    (w : World) (i : nat) (r : Ingestor.ItemIn) :
  rs !! i = Some r ->
  Ingestor.in_text r = None \/ Ingestor.in_conversation_id r = None ->
  exists f fs w',
    Ingestor.post_memory_batch env rs w = (Raise (ValidationError (f :: fs)), w') /\
    trace w' = trace w /\ qdrant w' = qdrant w.
Proof.
  intros Hi Hbad. destruct (validate_all_run env rs w) as (Htr & Hq & Hraise).
  destruct Hraise as (f & fs & Hf).
  { exists r. split; [eapply list_elem_of_lookup_2; exact Hi | exact Hbad]. }
  unfold Ingestor.post_memory_batch, bind.
  destruct (mapM (Ingestor.Item_validate env) rs w) as [[items|e] w']; cbn in *;
    [discriminate|]. injection Hf as ->. exists f, fs, w'. repeat split; assumption.
Qed.

(** Witness for X14: a valid body followed by one without text. *)
Lemma batch_with_invalid_body_sends_nothing_witness :
  exists f fs w',
    Ingestor.post_memory_batch demo_env
      [Ingestor.mkItemIn (Some "hello") (Some "c1") None None None;
       Ingestor.mkItemIn None (Some "c1") None None None] booted_world
    = (Raise (ValidationError (f :: fs)), w') /\
    trace w' = trace booted_world /\ qdrant w' = qdrant booted_world.
Proof.
  apply (batch_with_invalid_body_sends_nothing demo_env
           [Ingestor.mkItemIn (Some "hello") (Some "c1") None None None;
            Ingestor.mkItemIn None (Some "c1") None None None] booted_world 1%nat
           (Ingestor.mkItemIn None (Some "c1") None None None)).
  - reflexivity.
  - left. reflexivity.
Defined.

(** ** The embedding service and its two clients *)

(** X15. How a failure of the model reaches the callers. With the embedding
    service of embed_head behind the URL: when [model.encode] gives the
    numbers, both clients return them as the vector; when it raises, the
    service answers 500 with a body that has only "detail", so the
    ingestor, which does not look at the status, fails on the missing key
    and [_store] reports 502 with the detail 'vector', while the wrapper
    class raises on the status. *)
Theorem model_failure_reaches_the_callers (env : Env)
    (encode : string -> Outcome (list float)) (t : string) (w : World) :
  (forall n s, embed_head env n s = EmbedHead.http_reply (EmbedHead.embed encode s)) ->
  (forall vec, encode t = Return vec ->
     fst (Ingestor._embed env [t] w) = Return [VList (map VFloat vec)] /\
     fst (QdrantMemory.embed env t w) = Return (VList (map VFloat vec)))
  /\
  (forall e, encode t = Raise e ->
     fst (Ingestor._embed env [t] w) = Raise (KeyError "vector") /\
     fst (QdrantMemory.embed env t w) = Raise (RequestException ("HTTPError " +:+ pretty 500)) /\
     forall itm, Ingestor.text itm = t ->
       fst (Ingestor._store env [itm] w) = Raise (HTTPException 502 "'vector'")).
Proof.
  intros Hserved.
  assert (Hemb : forall o, encode t = o ->
            Ingestor._embed env [t] w =
            (match o with
             | Return vec => Return [VList (map VFloat vec)]
             | Raise _ => Raise (KeyError "vector")
             end,
             mkWorld (qdrant w) (trace w ++ [CPost EMBED_URL t]) (S (tick w)))).
  { intros o Ho. unfold Ingestor._embed. cbn [mapM]. unfold bind at 1.
    rewrite embed_one_run, Hserved. unfold EmbedHead.embed. rewrite Ho.
    destruct o as [vec|e]; cbn [EmbedHead.http_reply].
    - rewrite lookup_singleton_eq. reflexivity.
    - rewrite lookup_singleton_ne by discriminate. reflexivity. }
  split.
  - intros vec Hv. split; [rewrite (Hemb _ Hv); reflexivity|].
    unfold QdrantMemory.embed, requests_post, raise_for_status, resp_json, getitem,
      bind, log, next_tick, ret, raise. cbn. rewrite Hserved. unfold EmbedHead.embed.
    rewrite Hv. cbn. rewrite lookup_singleton_eq. reflexivity.
  - intros e He. split; [rewrite (Hemb _ He); reflexivity|]. split.
    + unfold QdrantMemory.embed, requests_post, raise_for_status, bind, log, next_tick,
        ret, raise. cbn. rewrite Hserved. unfold EmbedHead.embed. rewrite He. reflexivity.
    + intros itm <-. rewrite _store_unfold. cbn [map]. rewrite (Hemb _ He). reflexivity.
Qed.

(** Witness for X15: a model that encodes "hello" and fails on "world". *)
Lemma model_failure_reaches_the_callers_witness :
  (fst (Ingestor._embed env_served ["hello"] booted_world)
     = Return [VList (map VFloat demo_query)] /\
   fst (QdrantMemory.embed env_served "hello" booted_world)
     = Return (VList (map VFloat demo_query)))
  /\
  (fst (Ingestor._embed env_served ["world"] booted_world) = Raise (KeyError "vector") /\
   fst (QdrantMemory.embed env_served "world" booted_world)
     = Raise (RequestException ("HTTPError " +:+ pretty 500)) /\
   forall itm, Ingestor.text itm = "world" ->
     fst (Ingestor._store env_served [itm] booted_world) = Raise (HTTPException 502 "'vector'")).
Proof.
  split.
  - apply (proj1 (model_failure_reaches_the_callers env_served demo_encode "hello" booted_world
                    (fun _ _ => eq_refl)) demo_query). reflexivity.
  - apply (proj2 (model_failure_reaches_the_callers env_served demo_encode "world" booted_world
                    (fun _ _ => eq_refl)) (RequestException "CUDA out of memory")). reflexivity.
Defined.
